(** * Video-backed frame retrieval of lerobot: [video_utils.py]

    A shallow embedding of [load_from_videos],
    [decode_video_frames_torchvision] and [encode_video_frames]
    (src/lerobot/common/datasets/video_utils.py), of a few constructors of
    the VQ-BeT policy (src/lerobot/common/policies/vqbet/modeling_vqbet.py),
    and the properties of the retrieval engine that the specification states
    about them.

    Conventions of the embedding.
    - Numbers are modelled bit-exactly.  A Python float (a timestamp, the
      tolerance) is an IEEE 754 binary64 number and an element of a float32
      tensor is a binary32 number, both as [spec_float]; [torch.tensor]
      rounds the former to the latter, to nearest even.  An 8-bit pixel value
      is a [Z] in 0..255.
    - Exceptions are values of [Exception]; the effects on the video backend
      and on the logger are recorded, in program order, in a trace of
      [Event]s.  A computation is a pair of its trace and of either the
      exception it raised or its result. *)

From Stdlib Require Import ZArith QArith Qabs SpecFloat String Ascii List Lia Sorted.
From stdpp Require Import gmap strings pretty.
Import ListNotations.

#[local] Set Warnings "-clear-no-such-hyp".

Local Open Scope string_scope.
Local Open Scope Z_scope.
Local Open Scope list_scope.

(** ** Floating-point numbers *)

(** A Python float. *)
Abbreviation float64 := spec_float (only parsing).

(** An element of a float32 tensor. *)
Abbreviation float32 := spec_float (only parsing).

Definition f64_prec : Z := 53.
Definition f64_emax : Z := 1024.
Definition f32_prec : Z := 24.
Definition f32_emax : Z := 128.

Definition is_nan (x : spec_float) : bool :=
  match x with
  | S754_nan => true
  | _ => false
  end.

(** Rounding of a Python float to float32 (to nearest, ties to even; beyond
    the float32 range the result is an infinity), as [torch.tensor] does for a
    list of Python floats and as a comparison of a float32 tensor with a
    Python float does for the scalar. *)
Definition f32_of_f64 (x : float64) : float32 :=
  match x with
  | S754_finite s m e => binary_round f32_prec f32_emax s m e
  | _ => x
  end.

Definition f32_sub : float32 -> float32 -> float32 := SFsub f32_prec f32_emax.

(** ** Data model *)

(** A decoded pixel buffer: the uint8 values of a C x H x W tensor, flattened. *)
Definition Buffer : Type := list Z.

(** A normalised frame: the float32 values of the same tensor. *)
Definition Tensor : Type := list spec_float.

(** What the reader's iterator yields: [frame["pts"]] and [frame["data"]]. *)
Record Frame : Type := mkFrame { pts : float64; data : Buffer }.

(** The [VideoFrame] feature: [{"path": ..., "timestamp": ...}]. *)
Record VideoFrame : Type := mkVideoFrame { path : string; timestamp : float64 }.

(** The values a dataset item holds under a key: a frame reference, a Python
    list of frame references, a tensor (one frame, or any other feature), or
    the stacked tensor of several frames. *)
Inductive ItemValue : Type :=
| VFrameRef (ref : VideoFrame)
| VFrameRefList (refs : list VideoFrame)
| VTensor (t : Tensor)
| VTensorStack (ts : list Tensor).

(** Payload of an [AssertionError]: the two values from which the message of
    the tolerance assertion is formatted, the float32 tensor
    [min_[~is_within_tol]] (which the f-string prints as torch prints a
    tensor) and the Python float [tolerance_s]; the final length assertion
    has no message. *)
Inductive AssertMsg : Type :=
| ToleranceViolated (violating_min : list float32) (tolerance_s : float64)
| NoMessage.

Inductive Exception : Type :=
| NotImplementedError (msg : string)
| ValueError (arg : string)
| IndexError
| KeyError (key : string)
| AssertionError (msg : AssertMsg)
| ResourceError         (* the reader cannot open the file *)
| SeekError.            (* the reader cannot seek to the timestamp *)

(** The values that [logging.info] formats. *)
Inductive LogMsg : Type :=
| FrameLoadedAt (current_ts : float64)
| ClosestTs (closest_ts : list float32).

Inductive Event : Type :=
| SetVideoBackend (backend : string)
| OpenReader (video_path : string)
| Seek (ts : float64)
| NextFrame (frame : Frame)
| LogInfo (msg : LogMsg).

(** ** Computations with a trace and exceptions *)

Definition M (A : Type) : Type := (list Event * (Exception + A))%type.

Definition raise {A : Type} (e : Exception) : M A := ([], inl e).
Definition emit (ev : Event) : M unit := ([ev], inr tt).
Definition lift {A : Type} (r : Exception + A) : M A := ([], r).

#[global] Instance M_ret : MRet M := fun A a => ([], inr a).

#[global] Instance M_bind : MBind M := fun A B k m =>
  match m with
  | (tr, inl e) => (tr, inl e)
  | (tr, inr a) => let '(tr', r) := k a in (tr ++ tr', r)
  end.

(** [for x in xs: acc = body(acc, x)] with exceptions leaving the loop. *)
Fixpoint for_each {A S : Type} (body : S -> A -> M S) (xs : list A) (s : S) : M S :=
  match xs with
  | [] => mret s
  | x :: rest => s' ← body s x; for_each body rest s'
  end.

(** [[f(x) for x in xs]] where [f] may raise. *)
Fixpoint list_comp {A B : Type} (f : A -> Exception + B) (xs : list A) : Exception + list B :=
  match xs with
  | [] => inr []
  | x :: rest =>
      match f x with
      | inl e => inl e
      | inr y =>
          match list_comp f rest with
          | inl e => inl e
          | inr ys => inr (y :: ys)
          end
      end
  end.

(** ** Python built-ins *)

(** [l[i]] on a Python list: negative indices count from the end, an index
    out of range raises [IndexError]. *)
Definition getitem {A : Type} (l : list A) (i : Z) : Exception + A :=
  let n := Z.of_nat (length l) in
  let j := if i <? 0 then i + n else i in
  if (j <? 0) || (n <=? j) then inl IndexError
  else match nth_error l (Z.to_nat j) with
       | Some x => inr x
       | None => inl IndexError
       end.

(** [d[key]] on a dict. *)
Definition dict_getitem (d : gmap string ItemValue) (key : string) : Exception + ItemValue :=
  match d !! key with
  | Some v => inr v
  | None => inl (KeyError key)
  end.

(** ** pathlib

    A pure POSIX path is its root and its components.  The root is ["/"] for
    a string that starts with one slash or with three or more, ["//"] for one
    that starts with exactly two, and empty for a relative path.  Parsing
    drops empty components and single dots; [p.parent] drops the last
    component (the parent of a path without components is the path itself);
    [p / s] appends the components of [s], unless [s] is absolute. *)
Record Path : Type := mkPath { root : string; parts : list string }.

Fixpoint split_slash (s : string) : list string :=
  match s with
  | EmptyString => [EmptyString]
  | String c rest =>
      if Ascii.eqb c "/"%char then EmptyString :: split_slash rest
      else match split_slash rest with
           | [] => [String c EmptyString]
           | h :: t => String c h :: t
           end
  end.

Definition is_component (s : string) : bool :=
  negb (String.eqb s "") && negb (String.eqb s ".").

Definition root_of_str (s : string) : string :=
  match s with
  | String "/" (String "/" (String "/" _)) => "/"
  | String "/" (String "/" _) => "//"
  | String "/" _ => "/"
  | _ => ""
  end.

Definition Path_of_str (s : string) : Path :=
  {| root := root_of_str s;
     parts := List.filter is_component (split_slash s) |}.

Definition parent (p : Path) : Path :=
  {| root := root p; parts := removelast (parts p) |}.

Definition truediv (p : Path) (s : string) : Path :=
  let q := Path_of_str s in
  if String.eqb (root q) "" then {| root := root p; parts := parts p ++ parts q |}
  else q.

Fixpoint join_slash (l : list string) : string :=
  match l with
  | [] => ""
  | [x] => x
  | x :: rest => String.append x (String.append "/" (join_slash rest))
  end.

Definition str (p : Path) : string :=
  match parts p with
  | [] => if String.eqb (root p) "" then "." else root p
  | l => String.append (root p) (join_slash l)
  end.

(** ** The video backend

    [torchvision.io.VideoReader] is an external collaborator.  The embedding
    of the repository's code is parametric in it: opening a file, seeking an
    open reader, and the finite sequence of frames that iterating the reader
    yields from its cursor, in order. *)
Record Backend : Type := mkBackend {
  Reader : Type;
  open_reader : string -> Exception + Reader;
  reader_seek : Reader -> float64 -> Exception + Reader;
  reader_frames : Reader -> list Frame
}.

(** ** torch operations *)

(** [torch.cdist(query[:, None], loaded[:, None], p=1)] on float32 tensors:
    one row per query, each entry the absolute value of the float32
    difference. *)
Definition cdist_l1 (query_ts loaded_ts : list float32) : list (list float32) :=
  List.map (fun q => List.map (fun l => SFabs (f32_sub q l)) loaded_ts) query_ts.

(** The reduction of one row by [min]: the entry [value] at index [i]
    replaces the running minimum unless [value >= min_number]; a NaN replaces
    it and ends the reduction. *)
Fixpoint min_loop (min_number : float32) (index i : nat) (row : list float32)
    : float32 * nat :=
  match row with
  | [] => (min_number, index)
  | value :: rest =>
      if negb (SFleb min_number value)
      then if is_nan value then (value, i)
           else min_loop value i (S i) rest
      else min_loop min_number index (S i) rest
  end.

Definition row_min (row : list float32) : Exception + (float32 * nat) :=
  match row with
  | [] => inl IndexError
  | first :: _ => inr (min_loop first 0 0 row)
  end.

(** [dist.min(1)]: the pair of the row minima and of their indices; torch
    returns the index of the first minimal value of a row, propagates NaN, and
    raises [IndexError] for a reduction over an empty dimension. *)
Definition torch_min_dim1 (dist : list (list float32))
    : Exception + (list float32 * list nat) :=
  match list_comp row_min dist with
  | inl e => inl e
  | inr rows => inr (List.map fst rows, List.map snd rows)
  end.

(** [t[mask]]: the entries of [t] where the boolean mask holds. *)
Fixpoint masked_select {A : Type} (t : list A) (mask : list bool) : list A :=
  match t, mask with
  | x :: t', b :: mask' => if b then x :: masked_select t' mask' else masked_select t' mask'
  | _, _ => []
  end.

(** Conversion of an integer to float32, rounding to nearest even. *)
Definition to_float32 (v : Z) : spec_float := binary_normalize f32_prec f32_emax v 0 false.

Definition f32_div : spec_float -> spec_float -> spec_float := SFdiv f32_prec f32_emax.

(** [buffer.type(torch.float32) / 255], element by element. *)
Definition normalize_value (v : Z) : spec_float := f32_div (to_float32 v) (to_float32 255).

Definition normalize (buffer : Buffer) : Tensor := List.map normalize_value buffer.

(** ** decode_video_frames_torchvision *)

(** The loop [for frame in reader: ...] of lines 89-96, over the frames the
    iterator yields; the result is the pair [(loaded_frames, loaded_ts)].  The
    test [current_ts >= last_ts] compares two Python floats. *)
Fixpoint scan_loop (log_loaded_timestamps : bool) (last_ts : float64) (frames : list Frame)
    (loaded_frames : list Buffer) (loaded_ts : list float64)
    : M (list Buffer * list float64) :=
  match frames with
  | [] => mret (loaded_frames, loaded_ts)
  | frame :: rest =>
      emit (NextFrame frame);;
      let current_ts := pts frame in
      (if log_loaded_timestamps then emit (LogInfo (FrameLoadedAt current_ts)) else mret tt);;
      let loaded_frames := loaded_frames ++ [data frame] in
      let loaded_ts := loaded_ts ++ [current_ts] in
      if SFleb last_ts current_ts then mret (loaded_frames, loaded_ts)
      else scan_loop log_loaded_timestamps last_ts rest loaded_frames loaded_ts
  end.

Definition decode_video_frames_torchvision (B : Backend) (video_path : Path)
    (timestamps : list float64) (tolerance_s : float64) (device : string)
    (log_loaded_timestamps : bool) : M (list Tensor) :=
  let video_path := str video_path in
  (if String.eqb device "cpu" then emit (SetVideoBackend "pyav")
   else if String.eqb device "cuda" then raise (NotImplementedError "")
   else raise (ValueError device));;
  reader ← (emit (OpenReader video_path);; lift (open_reader B video_path));
  first_ts ← lift (getitem timestamps 0);
  last_ts ← lift (getitem timestamps (-1));
  reader ← (emit (Seek first_ts);; lift (reader_seek B reader first_ts));
  '(loaded_frames, loaded_ts) ←
    scan_loop log_loaded_timestamps last_ts (reader_frames B reader) [] [];
  let query_ts := List.map f32_of_f64 timestamps in
  let loaded_ts := List.map f32_of_f64 loaded_ts in
  let dist := cdist_l1 query_ts loaded_ts in
  '(min_, argmin_) ← lift (torch_min_dim1 dist);
  let is_within_tol := List.map (fun m => SFltb m (f32_of_f64 tolerance_s)) min_ in
  (if forallb id is_within_tol then mret tt
   else raise (AssertionError
                 (ToleranceViolated (masked_select min_ (List.map negb is_within_tol))
                                    tolerance_s)));;
  closest_frames ← lift (list_comp (fun idx => getitem loaded_frames (Z.of_nat idx)) argmin_);
  closest_ts ← lift (list_comp (fun idx => getitem loaded_ts (Z.of_nat idx)) argmin_);
  (if log_loaded_timestamps then emit (LogInfo (ClosestTs closest_ts)) else mret tt);;
  let closest_frames := List.map normalize closest_frames in
  (if Nat.eqb (length timestamps) (length closest_frames) then mret tt
   else raise (AssertionError NoMessage));;
  mret closest_frames.

(** ** load_from_videos *)

(** The body of the loop over [video_frame_keys], lines 20-36. *)
Definition load_key (B : Backend) (data_dir : Path) (tolerance_s : float64)
    (item : gmap string ItemValue) (key : string) : M (gmap string ItemValue) :=
  v ← lift (dict_getitem item key);
  match v with
  | VFrameRefList refs =>
      let timestamps := List.map timestamp refs in
      let paths := List.map path refs in
      (if decide (size (list_to_set paths : gset string) = 1%nat)
       then raise (NotImplementedError "All video paths are expected to be the same for now.")
       else mret tt);;
      path0 ← lift (getitem paths 0);
      let video_path := truediv data_dir path0 in
      frames ← decode_video_frames_torchvision B video_path timestamps tolerance_s "cpu" false;
      mret (<[key := VTensorStack frames]> item)
  | VFrameRef ref =>
      let timestamps := [timestamp ref] in
      let video_path := truediv data_dir (path ref) in
      frames ← decode_video_frames_torchvision B video_path timestamps tolerance_s "cpu" false;
      frame0 ← lift (getitem frames 0);
      mret (<[key := VTensor frame0]> item)
  | VTensor _ | VTensorStack _ =>
      (* [item[key]["timestamp"]] on a tensor: torch raises IndexError *)
      raise IndexError
  end.

Definition load_from_videos (B : Backend) (item : gmap string ItemValue)
    (video_frame_keys : list string) (videos_dir : Path) (tolerance_s : float64)
    : M (gmap string ItemValue) :=
  let data_dir := parent videos_dir in
  for_each (load_key B data_dir tolerance_s) video_frame_keys item.

(** ** A reader that follows section 4.1 of the specification *)

(** An encoded video: its frames in presentation order, each flagged as key
    frame or not, and the length of the stream in seconds. *)
Record Video : Type := mkVideo { video_frames : list (bool * Frame); video_duration : float64 }.

Record StreamCursor : Type := mkCursor { cursor_video : Video; cursor_index : nat }.

Definition in_stream_bounds (v : Video) (t : float64) : bool :=
  SFleb (S754_zero false) t && SFleb t (video_duration v).

(** Index of the last key frame whose timestamp is at most [t]; the start of
    the stream when there is none. *)
Fixpoint key_frame_index (t : float64) (frames : list (bool * Frame)) (i best : nat) : nat :=
  match frames with
  | [] => best
  | (is_key, f) :: rest =>
      key_frame_index t rest (S i) (if is_key && SFleb (pts f) t then i else best)
  end.

(** Modelled from the spec: the Video Reader Adapter, whose implementation
    (torchvision's VideoReader over pyav) is not part of the repository's
    sources.  [open] fails with [ResourceError] on a missing file; [seek]
    fails with [SeekError] when the timestamp is outside the stream bounds and
    otherwise moves the cursor to the nearest key frame at or before the
    timestamp; iteration yields the frames from the cursor on, in
    presentation order. *)
Definition spec_backend (files : gmap string Video) : Backend :=
  {| Reader := StreamCursor;
     open_reader := fun video_path =>
       match files !! video_path with
       | Some v => inr {| cursor_video := v; cursor_index := 0 |}
       | None => inl ResourceError
       end;
     reader_seek := fun r t =>
       if in_stream_bounds (cursor_video r) t
       then inr {| cursor_video := cursor_video r;
                   cursor_index := key_frame_index t (video_frames (cursor_video r)) 0 0 |}
       else inl SeekError;
     reader_frames := fun r =>
       List.map snd (skipn (cursor_index r) (video_frames (cursor_video r))) |}.

(** ** encode_video_frames *)

(** [s.split(sep)] for a one-character separator: every occurrence of the
    separator ends a field, so that consecutive separators give empty fields. *)
Fixpoint str_split (sep : ascii) (s : string) : list string :=
  match s with
  | EmptyString => [EmptyString]
  | String c rest =>
      if Ascii.eqb c sep then EmptyString :: str_split sep rest
      else match str_split sep rest with
           | [] => [String c EmptyString]
           | h :: t => String c h :: t
           end
  end.

(** What [encode_video_frames] asks of the operating system, and how that
    can fail. *)
Inductive SysCall : Type :=
| Mkdir (dir : Path)                 (* dir.mkdir(parents=True, exist_ok=True) *)
| SubprocessRun (args : list string).   (* subprocess.run(args, check=True) *)

Inductive SysError : Type :=
| OSError (call : SysCall)
| CalledProcessError (returncode : Z) (cmd : list string).

(** The operating system as one call of [encode_video_frames] sees it: the
    outcome of creating the directory, and the outcome of running the command
    after that ([None]: the program could not be started, [Some rc]: it ran
    and returned [rc]). *)
Record System : Type := mkSystem {
  sys_mkdir : Path -> bool;
  sys_run : list string -> option Z
}.

(** The command line of lines 132-140; [pretty fps] is the decimal string of
    the integer, as the f-string formats it. *)
Definition ffmpeg_cmd (imgs_dir video_path : Path) (fps : Z) : string :=
  String.concat ""
    [ "ffmpeg -r "; pretty fps; " ";
      "-f image2 ";
      "-loglevel error ";
      "-i "; str (truediv imgs_dir "frame_%06d.png"); " ";
      "-vcodec libx264 ";
      "-pix_fmt yuv444p ";
      str video_path ].

Definition encode_video_frames (sys : System) (imgs_dir video_path : Path) (fps : Z)
    : list SysCall * (SysError + unit) :=
  let dir := parent video_path in
  if sys_mkdir sys dir then
    let args := str_split " " (ffmpeg_cmd imgs_dir video_path fps) in
    match sys_run sys args with
    | None => ([Mkdir dir; SubprocessRun args], inl (OSError (SubprocessRun args)))
    | Some rc =>
        if rc =? 0 then ([Mkdir dir; SubprocessRun args], inr tt)
        else ([Mkdir dir; SubprocessRun args], inl (CalledProcessError rc args))
    end
  else ([Mkdir dir], inl (OSError (Mkdir dir))).

(** ** modeling_vqbet.py: MLP, VqVae and VQBeTScheduler *)

(** A layer of the [torch.nn.Sequential], by its shape. *)
Inductive Layer : Type :=
| Linear (in_features out_features : Z)
| ReLU.

Inductive MLPError : Type :=
| MLPIndexError      (* hidden_channels[-1] on an empty list *)
| MLPRuntimeError.   (* torch.nn.Linear cannot allocate its parameters *)

(** [torch.nn.Linear(in_dim, out_dim)] allocates a weight of
    [out_dim * in_dim] and a bias of [out_dim] numbers.  It raises
    [RuntimeError] on a negative dimension, and when the storage cannot be
    allocated (its size overflows, or the machine lacks the memory): that
    outcome belongs to torch and to the machine, and is the parameter
    [allocates]. *)
Definition new_Linear (allocates : Z -> Z -> bool) (in_dim out_dim : Z) : MLPError + Layer :=
  if (in_dim <? 0) || (out_dim <? 0) || negb (allocates in_dim out_dim)
  then inl MLPRuntimeError
  else inr (Linear in_dim out_dim).

(** The loop of [MLP.__init__] over [hidden_channels[:-1]]. *)
Fixpoint MLP_loop (allocates : Z -> Z -> bool) (hidden : list Z) (layers : list Layer)
    (in_dim : Z) : MLPError + (list Layer * Z) :=
  match hidden with
  | [] => inr (layers, in_dim)
  | hidden_dim :: rest =>
      match new_Linear allocates in_dim hidden_dim with
      | inl e => inl e
      | inr lin => MLP_loop allocates rest (layers ++ [lin] ++ [ReLU]) hidden_dim
      end
  end.

(** [MLP.__init__]: the layers handed to [torch.nn.Sequential]. *)
Definition MLP_init (allocates : Z -> Z -> bool) (in_channels : Z)
    (hidden_channels : list Z) : MLPError + list Layer :=
  match MLP_loop allocates (removelast hidden_channels) [] in_channels with
  | inl e => inl e
  | inr (layers, in_dim) =>
      match getitem hidden_channels (-1) with
      | inl _ => inl MLPIndexError
      | inr out_dim =>
          match new_Linear allocates in_dim out_dim with
          | inl e => inl e
          | inr lin => inr (layers ++ [lin])
          end
      end
  end.

(** The number of features that leaves a sequence of layers entered with
    [dim] features: a linear layer accepts its [in_features] only, a ReLU
    keeps the shape. *)
Fixpoint forward_features (layers : list Layer) (dim : Z) : option Z :=
  match layers with
  | [] => Some dim
  | Linear i o :: rest => if dim =? i then forward_features rest o else None
  | ReLU :: rest => forward_features rest dim
  end.

(** The fields of [VQBeTConfig] that size the VQ-VAE: [action_dim] stands
    for [output_shapes["action"][0]]. *)
Record VQBeTConfig : Type := mkVQBeTConfig {
  action_dim : Z;
  action_chunk_size : Z;
  vqvae_enc_hidden_dim : Z;
  vqvae_embedding_dim : Z
}.

(** [VqVae.__init__]: the encoder and the decoder. *)
Definition VqVae_encoder (allocates : Z -> Z -> bool) (config : VQBeTConfig)
    : MLPError + list Layer :=
  MLP_init allocates (action_dim config * action_chunk_size config)
           [vqvae_enc_hidden_dim config; vqvae_enc_hidden_dim config;
            vqvae_embedding_dim config].

Definition VqVae_decoder (allocates : Z -> Z -> bool) (config : VQBeTConfig)
    : MLPError + list Layer :=
  MLP_init allocates (vqvae_embedding_dim config)
           [vqvae_enc_hidden_dim config; vqvae_enc_hidden_dim config;
            action_dim config * action_chunk_size config].

(** The state of a [VQBeTScheduler]: its two integer fields, and how many
    times the wrapped learning-rate scheduler has been stepped. *)
Record VQBeTScheduler : Type := mkVQBeTScheduler {
  n_vqvae_training_steps : Z;
  optimizing_step : Z;
  lr_scheduler_steps : nat
}.

(** [VQBeTScheduler.__init__]: no optimisation step has been taken. *)
Definition VQBeTScheduler_init (n_vqvae_training_steps : Z) : VQBeTScheduler :=
  {| n_vqvae_training_steps := n_vqvae_training_steps;
     optimizing_step := 0;
     lr_scheduler_steps := 0 |}.

(** [VQBeTScheduler.step]. *)
Definition VQBeTScheduler_step (self : VQBeTScheduler) : VQBeTScheduler :=
  let optimizing_step' := optimizing_step self + 1 in
  {| n_vqvae_training_steps := n_vqvae_training_steps self;
     optimizing_step := optimizing_step';
     lr_scheduler_steps :=
       if n_vqvae_training_steps self <=? optimizing_step'
       then S (lr_scheduler_steps self) else lr_scheduler_steps self |}.

(** ** Concrete data for the examples *)

(** The Python float nearest to the fraction [n / d]: the value of a decimal
    literal such as [0.05] ([f64 5 100]) and of [float(Fraction(n, d))]. *)
Definition f64 (n : Z) (d : positive) : float64 :=
  SFdiv f64_prec f64_emax (binary_normalize f64_prec f64_emax n 0 false)
        (binary_normalize f64_prec f64_emax (Zpos d) 0 false).

(** [n] frames at [fps] frames per second, a key frame every [keyint]
    frames; frame [i] is one pixel of value [i]. *)
Definition encode_frames (fps : positive) (keyint n : nat) : Video :=
  {| video_frames :=
       List.map (fun i => (Nat.eqb (i mod keyint) 0,
                           {| pts := f64 (Z.of_nat i) fps; data := [Z.of_nat i] |}))
                (seq 0 n);
     video_duration := f64 (Z.of_nat n) fps |}.

(** The video of the specification's scenarios: 30 frames at 10 fps. *)
Definition episode_0 : Video := encode_frames 10 10 30.

(** A video whose timestamps are exact in binary: 24 frames at 8 fps. *)
Definition episode_8fps : Video := encode_frames 8 8 24.

Definition example_files : gmap string Video :=
  {[ "data/videos/episode_0.mp4" := episode_0;
     "data/videos/episode_1.mp4" := encode_frames 10 10 20;
     "data/videos/episode_8fps.mp4" := episode_8fps ]}.

Definition example_backend : Backend := spec_backend example_files.

Definition episode_0_path : Path := Path_of_str "data/videos/episode_0.mp4".


(** A dataset item with one frame reference and one list of two references. *)
Definition example_item : gmap string ItemValue :=
  {[ "observation.image" :=
       VFrameRef {| path := "videos/episode_0.mp4"; timestamp := f64 1 10 |};
     "observation.images" :=
       VFrameRefList [ {| path := "videos/episode_0.mp4"; timestamp := f64 1 10 |};
                       {| path := "videos/episode_1.mp4"; timestamp := f64 2 10 |} ] ]}.

(** The same item with a list of two references to one video. *)
Definition example_item_one_video : gmap string ItemValue :=
  {[ "observation.image" :=
       VFrameRef {| path := "videos/episode_0.mp4"; timestamp := f64 1 10 |};
     "observation.images" :=
       VFrameRefList [ {| path := "videos/episode_0.mp4"; timestamp := f64 1 10 |};
                       {| path := "videos/episode_0.mp4"; timestamp := f64 2 10 |} ] ]}.

Definition example_keys : list string := ["observation.image"; "observation.images"].

Definition example_videos_dir : Path := Path_of_str "data/videos".

(** ** Vocabulary of the properties *)

(** [prepend tr m]: the computation [m] after the events [tr]. *)
Definition prepend {A : Type} (tr : list Event) (m : M A) : M A := (tr ++ fst m, snd m).

(** The events of pulling the frames [pulled] one after the other. *)
Definition scan_trace (log_loaded_timestamps : bool) (pulled : list Frame) : list Event :=
  flat_map (fun f => NextFrame f ::
                     (if log_loaded_timestamps then [LogInfo (FrameLoadedAt (pts f))] else []))
           pulled.

(** The frames a scan towards [last_ts] pulls from [frames]: all of them up
    to and including the first one at or after [last_ts]. *)
Fixpoint scan_prefix (last_ts : float64) (frames : list Frame) : list Frame :=
  match frames with
  | [] => []
  | f :: rest => if SFleb last_ts (pts f) then [f] else f :: scan_prefix last_ts rest
  end.

(** The distance between a requested timestamp and the timestamp of a frame
    as the code computes it: both rounded to float32, subtracted in float32. *)
Definition dist32 (q t : float64) : float32 :=
  SFabs (f32_sub (f32_of_f64 q) (f32_of_f64 t)).

(** [m] is the least entry of [row] and [j] is the first index holding it. *)
Definition first_min_at (row : list float32) (m : float32) (j : nat) : Prop :=
  nth_error row j = Some m /\
  (forall k d, nth_error row k = Some d -> SFleb m d = true) /\
  (forall k d, (k < j)%nat -> nth_error row k = Some d -> SFltb m d = true).

(** [f], at index [j] of the loaded frames, is nearest to the query [q] in
    the float32 distance, and every loaded frame before it is strictly
    farther. *)
Definition stable_nearest (loaded : list Frame) (q : float64) (j : nat) (f : Frame) : Prop :=
  nth_error loaded j = Some f /\
  (forall k g, nth_error loaded k = Some g ->
               SFleb (dist32 q (pts f)) (dist32 q (pts g)) = true) /\
  (forall k g, (k < j)%nat -> nth_error loaded k = Some g ->
               SFltb (dist32 q (pts f)) (dist32 q (pts g)) = true).

(** The events every run on the CPU backend starts with, once the reader is
    open and the first timestamp is known. *)
Definition open_seek_trace (video_path : Path) (first_ts : float64) : list Event :=
  [SetVideoBackend "pyav"; OpenReader (str video_path); Seek first_ts].

(** The frames pulled from the reader, as the trace records them. *)
Definition pulled_frames (tr : list Event) : list Frame :=
  flat_map (fun ev => match ev with NextFrame f => [f] | _ => [] end) tr.




(** The rational number that a finite float stands for. *)
Definition SF2Q (x : spec_float) : Q :=
  match x with
  | S754_finite s m e => (if s then - (Zpos m # 1) else (Zpos m # 1)) * Qpower 2 e
  | _ => 0
  end%Q.

(** The float32 numbers 0 and 1. *)
Definition f32_zero : spec_float := S754_zero false.
Definition f32_one : spec_float := SFone f32_prec f32_emax.


(** What the loop body did to the entry of a key it returned from:
    [before] is a frame reference and [after] the tensor decoded for it, or
    [before] is a list of frame references and [after] the stack of as many
    tensors, decoded from the path of the first reference. *)
Definition resolved_entry (B : Backend) (data_dir : Path) (tolerance_s : float64)
    (before after : option ItemValue) : Prop :=
  (exists ref tr frame,
      before = Some (VFrameRef ref) /\
      decode_video_frames_torchvision B (truediv data_dir (path ref)) [timestamp ref]
        tolerance_s "cpu" false = (tr, inr [frame]) /\
      after = Some (VTensor frame))
  \/
  (exists refs ref0 tr frames,
      before = Some (VFrameRefList refs) /\
      head refs = Some ref0 /\
      decode_video_frames_torchvision B (truediv data_dir (path ref0))
        (List.map timestamp refs) tolerance_s "cpu" false = (tr, inr frames) /\
      length frames = length refs /\
      after = Some (VTensorStack frames)).

(** The ways [decode_video_frames_torchvision] ends before the tolerance
    check, with the trace and the exception of each. *)
Inductive early_exit (B : Backend) (video_path : Path) (timestamps : list float64)
    (device : string) : list Event -> Exception -> Prop :=
| exit_cuda :
    device = "cuda" ->
    early_exit B video_path timestamps device [] (NotImplementedError "")
| exit_device :
    device <> "cpu" -> device <> "cuda" ->
    early_exit B video_path timestamps device [] (ValueError device)
| exit_open e :
    device = "cpu" ->
    open_reader B (str video_path) = inl e ->
    early_exit B video_path timestamps device
      [SetVideoBackend "pyav"; OpenReader (str video_path)] e
| exit_no_timestamp r0 :
    device = "cpu" ->
    open_reader B (str video_path) = inr r0 ->
    timestamps = [] ->
    early_exit B video_path timestamps device
      [SetVideoBackend "pyav"; OpenReader (str video_path)] IndexError
| exit_seek r0 first_ts rest e :
    device = "cpu" ->
    open_reader B (str video_path) = inr r0 ->
    timestamps = first_ts :: rest ->
    reader_seek B r0 first_ts = inl e ->
    early_exit B video_path timestamps device (open_seek_trace video_path first_ts) e
| exit_no_frame r0 first_ts rest r :
    device = "cpu" ->
    open_reader B (str video_path) = inr r0 ->
    timestamps = first_ts :: rest ->
    reader_seek B r0 first_ts = inr r ->
    reader_frames B r = [] ->
    early_exit B video_path timestamps device (open_seek_trace video_path first_ts)
      IndexError.

(** The trace without the log messages. *)
Definition backend_events (tr : list Event) : list Event :=
  List.filter (fun ev => match ev with LogInfo _ => false | _ => true end) tr.

(** The paths of the readers opened along a trace, in order. *)
Definition opened_paths (tr : list Event) : list string :=
  flat_map (fun ev => match ev with OpenReader s => [s] | _ => [] end) tr.

(** The reference whose video [load_from_videos] reads for a value: the
    reference itself, or the first one of a list. *)
Definition video_ref (v : ItemValue) : option VideoFrame :=
  match v with
  | VFrameRef ref => Some ref
  | VFrameRefList refs => head refs
  | _ => None
  end.

(** No space occurs in the string. *)
Fixpoint no_space (s : string) : bool :=
  match s with
  | EmptyString => true
  | String c rest => negb (Ascii.eqb c " ") && no_space rest
  end.

Fixpoint count_spaces (s : string) : nat :=
  match s with
  | EmptyString => 0
  | String c rest => (if Ascii.eqb c " " then 1 else 0) + count_spaces rest
  end.

(** The state after [k] calls of [step]. *)
Fixpoint steps (k : nat) (self : VQBeTScheduler) : VQBeTScheduler :=
  match k with
  | O => self
  | S k' => steps k' (VQBeTScheduler_step self)
  end.

(** * Properties *)

(** ** The order of floating-point numbers *)


Lemma SFltb_not_nan (a b : spec_float) :
  SFltb a b = true -> is_nan a = false /\ is_nan b = false.
Proof. destruct a, b; simpl; intros H; split; reflexivity || discriminate. Qed.

#[local] Ltac sf_cases :=
  repeat match goal with
         | s : bool |- _ => destruct s
         end;
  cbn [SFcompare SFleb SFltb is_nan CompOpp] in *;
  try reflexivity; try discriminate;
  repeat match goal with
         | |- context [Z.compare ?x ?y] =>
             destruct (Z.compare_spec x y)
         | H : context [Z.compare ?x ?y] |- _ =>
             destruct (Z.compare_spec x y)
         | |- context [Pos.compare_cont Eq ?x ?y] =>
             change (Pos.compare_cont Eq x y) with (Pos.compare x y)
         | H : context [Pos.compare_cont Eq ?x ?y] |- _ =>
             change (Pos.compare_cont Eq x y) with (Pos.compare x y) in H
         | |- context [Pos.compare ?x ?y] =>
             destruct (Pos.compare_spec x y)
         | H : context [Pos.compare ?x ?y] |- _ =>
             destruct (Pos.compare_spec x y)
         end;
  cbn [CompOpp] in *; try reflexivity; try discriminate; try lia.

Lemma SFleb_refl (a : spec_float) : is_nan a = false -> SFleb a a = true.
Proof. unfold SFleb. destruct a; sf_cases. Qed.

Lemma SFltb_irrefl (x : spec_float) : SFltb x x = false.
Proof. unfold SFltb. destruct x; sf_cases. Qed.

Lemma SFleb_false_ltb (a b : spec_float) :
  is_nan a = false -> is_nan b = false -> SFleb a b = false -> SFltb b a = true.
Proof. unfold SFleb, SFltb. destruct a, b; sf_cases. Qed.

Lemma SFltb_leb (a b : spec_float) : SFltb a b = true -> SFleb a b = true.
Proof. unfold SFleb, SFltb. destruct a, b; sf_cases. Qed.

Lemma SFltb_leb_trans (a b c : spec_float) :
  SFltb a b = true -> SFleb b c = true -> SFltb a c = true.
Proof. unfold SFleb, SFltb. destruct a, b, c; sf_cases. Qed.


Lemma SFltb_false_of_leb (a b : spec_float) :
  SFleb a b = true -> SFltb b a = false.
Proof. unfold SFleb, SFltb. destruct a, b; sf_cases. Qed.
(** ** Indexing *)

Lemma getitem_nat {A : Type} (l : list A) (i : nat) (x : A) :
  nth_error l i = Some x -> getitem l (Z.of_nat i) = inr x.
Proof.
  intros H. unfold getitem.
  assert (Hlt : (i < length l)%nat) by (apply nth_error_Some; congruence).
  assert (E1 : (Z.of_nat i <? 0) = false) by (apply Z.ltb_ge; lia).
  assert (E2 : (Z.of_nat (length l) <=? Z.of_nat i) = false) by (apply Z.leb_gt; lia).
  cbv zeta. rewrite E1. cbv iota. rewrite E1, E2. simpl orb. cbv iota.
  rewrite Nat2Z.id, H. reflexivity.
Qed.

Lemma getitem_first {A : Type} (x : A) (l : list A) : getitem (x :: l) 0 = inr x.
Proof. apply (getitem_nat (x :: l) 0). reflexivity. Qed.

Lemma getitem_nil {A : Type} (i : Z) : getitem (@nil A) i = inl IndexError.
Proof. destruct i; reflexivity. Qed.

Lemma last_cons {A : Type} (x y : A) (l : list A) :
  List.last (y :: l) x = List.last l y.
Proof.
  revert x y. induction l as [|a l IH]; intros x y.
  - reflexivity.
  - change (List.last (y :: a :: l) x) with (List.last (a :: l) x).
    rewrite !IH. reflexivity.
Qed.

Lemma getitem_last {A : Type} (x : A) (l : list A) :
  getitem (x :: l) (-1) = inr (List.last l x).
Proof.
  unfold getitem. cbv zeta.
  change (-1 <? 0) with true. cbv iota.
  set (n := Z.of_nat (length (x :: l))).
  assert (Hn : n = Z.of_nat (length l) + 1) by (unfold n; simpl length; lia).
  assert (E1 : (-1 + n <? 0) = false) by (apply Z.ltb_ge; lia).
  assert (E2 : (n <=? -1 + n) = false) by (apply Z.leb_gt; lia).
  rewrite E1, E2. simpl orb. cbv iota.
  replace (Z.to_nat (-1 + n)) with (length l) by lia.
  clear n Hn E1 E2. revert x. induction l as [|y l IH]; intros x.
  - reflexivity.
  - simpl length. change (nth_error (x :: y :: l) (S (length l)))
      with (nth_error (y :: l) (length l)).
    rewrite IH. f_equal. symmetry. apply last_cons.
Qed.

Lemma list_comp_inr {A B : Type} (f : A -> Exception + B) (g : A -> B) (xs : list A) :
  (forall x, In x xs -> f x = inr (g x)) -> list_comp f xs = inr (List.map g xs).
Proof.
  induction xs as [|x xs IH]; intros H; simpl.
  - reflexivity.
  - rewrite (H x) by (left; reflexivity).
    rewrite IH by (intros y Hy; apply H; right; exact Hy). reflexivity.
Qed.

(** ** Laws of the computation monad *)

Lemma prepend_nil {A : Type} (m : M A) : prepend [] m = m.
Proof. destruct m; reflexivity. Qed.

Lemma prepend_prepend {A : Type} (tr1 tr2 : list Event) (m : M A) :
  prepend tr1 (prepend tr2 m) = prepend (tr1 ++ tr2) m.
Proof. unfold prepend. simpl. rewrite app_assoc. reflexivity. Qed.

Lemma prepend_pair {A : Type} (tr tr' : list Event) (r : Exception + A) :
  prepend tr (tr', r) = (tr ++ tr', r).
Proof. reflexivity. Qed.

Lemma bind_ok {A B : Type} (tr : list Event) (a : A) (k : A -> M B) :
  (tr, inr a) ≫= k = prepend tr (k a).
Proof. unfold mbind, M_bind, prepend. destruct (k a); reflexivity. Qed.

Lemma bind_err {A B : Type} (tr : list Event) (e : Exception) (k : A -> M B) :
  (tr, inl e) ≫= k = (tr, inl e).
Proof. reflexivity. Qed.

Lemma bind_ret {A B : Type} (a : A) (k : A -> M B) : mret a ≫= k = k a.
Proof. unfold mret, M_ret. rewrite bind_ok. apply prepend_nil. Qed.

Lemma bind_raise {A B : Type} (e : Exception) (k : A -> M B) : raise e ≫= k = ([], inl e).
Proof. reflexivity. Qed.

Lemma bind_emit {B : Type} (ev : Event) (k : unit -> M B) :
  emit ev ≫= k = prepend [ev] (k tt).
Proof. unfold emit. apply bind_ok. Qed.

Lemma bind_lift_ok {A B : Type} (a : A) (k : A -> M B) : lift (inr a) ≫= k = k a.
Proof. unfold lift. rewrite bind_ok. apply prepend_nil. Qed.

Lemma bind_lift_err {A B : Type} (e : Exception) (k : A -> M B) :
  lift (inl e) ≫= k = ([], inl e).
Proof. reflexivity. Qed.

Lemma bind_prepend {A B : Type} (tr : list Event) (m : M A) (k : A -> M B) :
  prepend tr m ≫= k = prepend tr (m ≫= k).
Proof.
  destruct m as [tr' [e|a]]; unfold prepend at 1; simpl fst; simpl snd.
  - rewrite !bind_err. reflexivity.
  - rewrite !bind_ok, prepend_prepend. reflexivity.
Qed.

Lemma bind_inr_inv {A B : Type} (m : M A) (k : A -> M B) (tr : list Event) (b : B) :
  m ≫= k = (tr, inr b) ->
  exists tr1 a tr2, m = (tr1, inr a) /\ k a = (tr2, inr b) /\ tr = tr1 ++ tr2.
Proof.
  destruct m as [tr1 [e|a]].
  - rewrite bind_err. discriminate.
  - rewrite bind_ok. unfold prepend. destruct (k a) as [tr2 r] eqn:E. simpl.
    intros [= <- ->]. exists tr1, a, tr2. auto.
Qed.

Create Rewrite HintDb run.
#[local] Hint Rewrite @bind_ok @bind_err @bind_ret @bind_raise @bind_emit
  @bind_lift_ok @bind_lift_err @bind_prepend @prepend_prepend @prepend_pair : run.

(** ** The scan loop *)

Lemma scan_loop_prefix (log_loaded_timestamps : bool) (last_ts : float64)
    (frames : list Frame) :
  forall loaded_frames loaded_ts,
    scan_loop log_loaded_timestamps last_ts frames loaded_frames loaded_ts
    = (scan_trace log_loaded_timestamps (scan_prefix last_ts frames),
       inr (loaded_frames ++ List.map data (scan_prefix last_ts frames),
            loaded_ts ++ List.map pts (scan_prefix last_ts frames))).
Proof.
  induction frames as [|frame rest IH]; intros loaded_frames loaded_ts.
  - simpl. rewrite !app_nil_r. reflexivity.
  - cbn [scan_loop scan_prefix]. rewrite bind_emit.
    destruct (SFleb last_ts (pts frame)).
    + destruct log_loaded_timestamps; autorewrite with run; reflexivity.
    + destruct log_loaded_timestamps; autorewrite with run; rewrite IH;
        autorewrite with run; cbn [List.map scan_trace flat_map app];
        rewrite <- !app_assoc; reflexivity.
Qed.

Lemma scan_prefix_nonempty (last_ts : float64) (frames : list Frame) :
  frames <> [] -> scan_prefix last_ts frames <> [].
Proof.
  destruct frames as [|f rest]; [congruence|]. intros _. simpl.
  destruct (SFleb last_ts (pts f)); discriminate.
Qed.


(** The scan ends at the first frame at or after [last_ts], which it keeps,
    or with the frames when there is none. *)
Lemma scan_prefix_stop (last_ts : float64) (frames : list Frame) :
  (scan_prefix last_ts frames = frames /\
   Forall (fun g => SFleb last_ts (pts g) = false) frames)
  \/
  (exists before f after,
      frames = before ++ f :: after /\
      scan_prefix last_ts frames = before ++ [f] /\
      Forall (fun g => SFleb last_ts (pts g) = false) before /\
      SFleb last_ts (pts f) = true).
Proof.
  induction frames as [|g rest IH].
  - left. split; [reflexivity | constructor].
  - cbn [scan_prefix]. destruct (SFleb last_ts (pts g)) eqn:E.
    + right. exists [], g, rest. repeat split; try constructor. exact E.
    + destruct IH as [[Heq Hall] | (before & f & after & Hfr & Hpre & Hall & Hf)].
      * left. split; [rewrite Heq; reflexivity | constructor; assumption].
      * right. exists (g :: before), f, after. rewrite Hpre, Hfr.
        repeat split; [constructor; assumption | exact Hf].
Qed.

(** ** The row minimum and its first index *)

Lemma min_loop_first_min (row : list float32) :
  forall (seen : list float32) (best : float32) (best_i : nat) (m : float32) (j : nat),
    is_nan best = false ->
    first_min_at seen best best_i ->
    min_loop best best_i (length seen) row = (m, j) ->
    nth_error (seen ++ row) j = Some m /\
    (is_nan m = false -> first_min_at (seen ++ row) m j).
Proof.
  induction row as [|d rest IH]; intros seen best best_i m j Hbest Hseen Hrun.
  - simpl in Hrun. injection Hrun as <- <-. rewrite app_nil_r.
    split; [apply Hseen | intros _; exact Hseen].
  - destruct Hseen as (Hat & Hle & Hlt).
    assert (Hbi : (best_i < length seen)%nat) by (apply nth_error_Some; congruence).
    replace (seen ++ d :: rest) with ((seen ++ [d]) ++ rest)
      by (rewrite <- app_assoc; reflexivity).
    cbn [min_loop] in Hrun.
    assert (Hlen : S (length seen) = length (seen ++ [d]))
      by (rewrite length_app; simpl; lia).
    destruct (SFleb best d) eqn:E; cbn [negb] in Hrun.
    + rewrite Hlen in Hrun.
      apply (IH (seen ++ [d]) best best_i m j Hbest); [|exact Hrun].
      split; [|split].
      * rewrite nth_error_app1 by exact Hbi. exact Hat.
      * intros k d' Hk. destruct (Nat.lt_ge_cases k (length seen)) as [Hks|Hks].
        -- rewrite nth_error_app1 in Hk by exact Hks. eapply Hle; exact Hk.
        -- rewrite nth_error_app2 in Hk by exact Hks.
           destruct (k - length seen)%nat as [|n]; simpl in Hk.
           ++ injection Hk as <-. exact E.
           ++ destruct n; discriminate.
      * intros k d' Hkj Hk. rewrite nth_error_app1 in Hk by lia.
        eapply Hlt; [exact Hkj | exact Hk].
    + destruct (is_nan d) eqn:Hd.
      * injection Hrun as <- <-. split.
        -- rewrite <- app_assoc. rewrite nth_error_app2 by lia.
           rewrite Nat.sub_diag. reflexivity.
        -- intros Hm. congruence.
      * rewrite Hlen in Hrun.
        pose proof (SFleb_false_ltb best d Hbest Hd E) as Hdb.
        apply (IH (seen ++ [d]) d (length seen) m j Hd); [|exact Hrun].
        split; [|split].
        -- rewrite nth_error_app2 by lia. rewrite Nat.sub_diag. reflexivity.
        -- intros k d' Hk. destruct (Nat.lt_ge_cases k (length seen)) as [Hks|Hks].
           ++ rewrite nth_error_app1 in Hk by exact Hks.
              apply SFltb_leb. eapply SFltb_leb_trans; [exact Hdb | eapply Hle; exact Hk].
           ++ rewrite nth_error_app2 in Hk by exact Hks.
              destruct (k - length seen)%nat as [|n]; simpl in Hk.
              ** injection Hk as <-. apply SFleb_refl, Hd.
              ** destruct n; discriminate.
        -- intros k d' Hks Hk. rewrite nth_error_app1 in Hk by exact Hks.
           eapply SFltb_leb_trans; [exact Hdb | eapply Hle; exact Hk].
Qed.

Lemma row_min_first_min (row : list float32) (m : float32) (j : nat) :
  row_min row = inr (m, j) ->
  nth_error row j = Some m /\ (is_nan m = false -> first_min_at row m j).
Proof.
  destruct row as [|d rest]; simpl; [discriminate|].
  destruct (is_nan d) eqn:Hd.
  - assert (E : SFleb d d = false) by (destruct d; try discriminate; reflexivity).
    rewrite E. cbn [negb]. intros [= <- <-].
    split; [reflexivity | intros Hm; congruence].
  - rewrite (SFleb_refl d Hd). cbn [negb]. intros [= Hrun].
    apply (min_loop_first_min rest [d] d 0%nat m j Hd).
    + split; [reflexivity | split].
      * intros [|[|k]] d' Hk; simpl in Hk; try discriminate.
        injection Hk as <-. apply SFleb_refl, Hd.
      * intros k d' Hk. lia.
    + exact Hrun.
Qed.

Lemma row_min_nonempty (row : list float32) :
  row <> [] -> exists m j, row_min row = inr (m, j).
Proof.
  destruct row as [|d rest]; [congruence|]. intros _. unfold row_min.
  destruct (min_loop d 0 0 (d :: rest)) as [m j]. exists m, j. reflexivity.
Qed.

Lemma cdist_row (q : float64) (loaded : list Frame) :
  List.map (fun l => SFabs (f32_sub (f32_of_f64 q) l))
           (List.map f32_of_f64 (List.map pts loaded))
  = List.map (fun f => dist32 q (pts f)) loaded.
Proof. rewrite !List.map_map. reflexivity. Qed.

(** With at least one loaded frame, [dist.min(1)] succeeds and returns for
    each request the float32 distance to a loaded frame, with the index of
    that frame; unless that distance is NaN, it is the least distance of the
    row and the index is the first one attaining it. *)
Lemma torch_min_cdist (timestamps : list float64) (loaded : list Frame) :
  loaded <> [] ->
  exists min_ argmin_,
    torch_min_dim1 (cdist_l1 (List.map f32_of_f64 timestamps)
                             (List.map f32_of_f64 (List.map pts loaded)))
    = inr (min_, argmin_) /\
    length min_ = length timestamps /\ length argmin_ = length timestamps /\
    forall i q, nth_error timestamps i = Some q ->
      exists m j f, nth_error min_ i = Some m /\ nth_error argmin_ i = Some j /\
                    nth_error loaded j = Some f /\ m = dist32 q (pts f) /\
                    (is_nan m = false -> stable_nearest loaded q j f).
Proof.
  intros Hne. unfold torch_min_dim1, cdist_l1.
  induction timestamps as [|q0 rest IH].
  - exists [], []. simpl. repeat split. intros [|i] q; discriminate.
  - destruct IH as (min_ & argmin_ & Hrun & Hl1 & Hl2 & Hall).
    cbn [List.map list_comp]. rewrite cdist_row.
    destruct (row_min_nonempty (List.map (fun f => dist32 q0 (pts f)) loaded))
      as (m0 & j0 & Hrow).
    { destruct loaded; [congruence | discriminate]. }
    rewrite Hrow.
    destruct (list_comp row_min _) as [e|rows]; [discriminate|].
    injection Hrun as <- <-.
    exists (m0 :: List.map fst rows), (j0 :: List.map snd rows).
    split; [reflexivity|]. split; [simpl; lia|]. split; [simpl; lia|].
    intros [|i] q Hq.
    + injection Hq as <-. apply row_min_first_min in Hrow.
      destruct Hrow as [Hat Hfirst]. rewrite nth_error_map in Hat.
      destruct (nth_error loaded j0) as [f|] eqn:Hf; [|discriminate].
      cbn [option_map] in Hat.
      assert (Hm : m0 = dist32 q0 (pts f)) by congruence.
      exists m0, j0, f.
      split; [reflexivity|]. split; [reflexivity|]. split; [exact Hf|].
      split; [exact Hm|]. intros Hnan.
      destruct (Hfirst Hnan) as (_ & Hle & Hlt).
      split; [exact Hf | split].
      * intros k g Hg. rewrite <- Hm. apply (Hle k).
        rewrite nth_error_map, Hg. reflexivity.
      * intros k g Hk Hg. rewrite <- Hm. apply (Hlt k); [exact Hk|].
        rewrite nth_error_map, Hg. reflexivity.
    + apply Hall. exact Hq.
Qed.

Lemma torch_min_cdist_empty (q : float32) (query_ts : list float32) :
  torch_min_dim1 (cdist_l1 (q :: query_ts) []) = inl IndexError.
Proof. reflexivity. Qed.

Lemma masked_select_filter {A : Type} (p : A -> bool) (t : list A) :
  masked_select t (List.map negb (List.map p t)) = List.filter (fun x => negb (p x)) t.
Proof.
  induction t as [|x t IH]; simpl; [reflexivity|].
  rewrite IH. destruct (p x); reflexivity.
Qed.

Lemma forallb_id_map {A : Type} (p : A -> bool) (l : list A) :
  forallb id (List.map p l) = forallb p l.
Proof. induction l as [|x l IH]; simpl; [reflexivity | rewrite IH; reflexivity]. Qed.

(** ** Early exits of [decode_video_frames_torchvision] *)

Lemma decode_cuda (B : Backend) (video_path : Path) (timestamps : list float64)
    (tolerance_s : float64) (log_loaded_timestamps : bool) :
  decode_video_frames_torchvision B video_path timestamps tolerance_s "cuda"
    log_loaded_timestamps
  = ([], inl (NotImplementedError "")).
Proof. reflexivity. Qed.

Lemma decode_other_device (B : Backend) (video_path : Path) (timestamps : list float64)
    (tolerance_s : float64) (device : string) (log_loaded_timestamps : bool) :
  device <> "cpu" -> device <> "cuda" ->
  decode_video_frames_torchvision B video_path timestamps tolerance_s device
    log_loaded_timestamps
  = ([], inl (ValueError device)).
Proof.
  intros Hcpu Hcuda. unfold decode_video_frames_torchvision.
  apply String.eqb_neq in Hcpu, Hcuda. rewrite Hcpu, Hcuda. reflexivity.
Qed.

Lemma decode_cpu_open_fails (B : Backend) (video_path : Path) (timestamps : list float64)
    (tolerance_s : float64) (log_loaded_timestamps : bool) (e : Exception) :
  open_reader B (str video_path) = inl e ->
  decode_video_frames_torchvision B video_path timestamps tolerance_s "cpu"
    log_loaded_timestamps
  = ([SetVideoBackend "pyav"; OpenReader (str video_path)], inl e).
Proof.
  intros Hopen. unfold decode_video_frames_torchvision.
  change (String.eqb "cpu" "cpu") with true. cbv iota zeta.
  autorewrite with run. rewrite Hopen. autorewrite with run. reflexivity.
Qed.

Lemma decode_cpu_no_timestamps (B : Backend) (video_path : Path)
    (tolerance_s : float64) (log_loaded_timestamps : bool) (r0 : Reader B) :
  open_reader B (str video_path) = inr r0 ->
  decode_video_frames_torchvision B video_path [] tolerance_s "cpu" log_loaded_timestamps
  = ([SetVideoBackend "pyav"; OpenReader (str video_path)], inl IndexError).
Proof.
  intros Hopen. unfold decode_video_frames_torchvision.
  change (String.eqb "cpu" "cpu") with true. cbv iota zeta.
  autorewrite with run. rewrite Hopen. autorewrite with run.
  rewrite getitem_nil. autorewrite with run. reflexivity.
Qed.

#[local] Ltac run_to_seek Hopen :=
  unfold decode_video_frames_torchvision;
  change (String.eqb "cpu" "cpu") with true; cbv iota zeta;
  autorewrite with run; rewrite Hopen; autorewrite with run;
  rewrite getitem_first; autorewrite with run;
  rewrite getitem_last; autorewrite with run.

Lemma decode_cpu_seek_fails (B : Backend) (video_path : Path) (first_ts : float64)
    (rest : list float64) (tolerance_s : float64) (log_loaded_timestamps : bool)
    (r0 : Reader B) (e : Exception) :
  open_reader B (str video_path) = inr r0 ->
  reader_seek B r0 first_ts = inl e ->
  decode_video_frames_torchvision B video_path (first_ts :: rest) tolerance_s "cpu"
    log_loaded_timestamps
  = (open_seek_trace video_path first_ts, inl e).
Proof.
  intros Hopen Hseek. run_to_seek Hopen.
  rewrite Hseek. autorewrite with run. reflexivity.
Qed.

Lemma decode_early_exit (B : Backend) (video_path : Path) (timestamps : list float64)
    (device : string) (tr : list Event) (e : Exception) :
  early_exit B video_path timestamps device tr e ->
  forall tolerance_s log_loaded_timestamps,
    decode_video_frames_torchvision B video_path timestamps tolerance_s device
      log_loaded_timestamps = (tr, inl e).
Proof.
  intros Hexit tolerance_s log_loaded_timestamps.
  destruct Hexit as [-> | Hcpu Hcuda | e -> Hopen | r0 -> Hopen ->
                    | r0 first_ts rest e -> Hopen -> Hseek
                    | r0 first_ts rest r -> Hopen -> Hseek Hframes].
  - apply decode_cuda.
  - apply decode_other_device; assumption.
  - apply decode_cpu_open_fails, Hopen.
  - eapply decode_cpu_no_timestamps, Hopen.
  - eapply decode_cpu_seek_fails; eassumption.
  - run_to_seek Hopen. rewrite Hseek. autorewrite with run.
    rewrite scan_loop_prefix, Hframes. autorewrite with run.
    cbn [scan_prefix List.map app]. rewrite torch_min_cdist_empty.
    autorewrite with run. reflexivity.
Qed.

(** ** Runs of [decode_video_frames_torchvision] that reach the tolerance
    check *)

(** Past the early exits: the row minima and their indices depend on the
    request and on the pulled frames only, and the tolerance assertion
    decides between the result and the exception. *)
Lemma decode_cpu_main (B : Backend) (video_path : Path) (first_ts : float64)
    (rest : list float64) (r0 r : Reader B) :
  open_reader B (str video_path) = inr r0 ->
  reader_seek B r0 first_ts = inr r ->
  reader_frames B r <> [] ->
  exists min_ argmin_,
    (forall i q, nth_error (first_ts :: rest) i = Some q ->
       exists m j f,
         nth_error min_ i = Some m /\ nth_error argmin_ i = Some j /\
         nth_error (scan_prefix (List.last rest first_ts) (reader_frames B r)) j = Some f /\
         m = dist32 q (pts f) /\
         (is_nan m = false ->
          stable_nearest (scan_prefix (List.last rest first_ts) (reader_frames B r)) q j f)) /\
    length min_ = length (first_ts :: rest) /\
    length argmin_ = length (first_ts :: rest) /\
    forall tolerance_s log_loaded_timestamps,
      decode_video_frames_torchvision B video_path (first_ts :: rest) tolerance_s "cpu"
        log_loaded_timestamps
      = let pulled := scan_prefix (List.last rest first_ts) (reader_frames B r) in
        if forallb (fun m => SFltb m (f32_of_f64 tolerance_s)) min_
        then (open_seek_trace video_path first_ts
              ++ scan_trace log_loaded_timestamps pulled
              ++ (if log_loaded_timestamps
                  then [LogInfo (ClosestTs
                          (List.map (fun j => nth j (List.map f32_of_f64 (List.map pts pulled))
                                                  S754_nan) argmin_))]
                  else []),
              inr (List.map (fun j => normalize (nth j (List.map data pulled) []))
                            argmin_))
        else (open_seek_trace video_path first_ts
              ++ scan_trace log_loaded_timestamps pulled,
              inl (AssertionError
                     (ToleranceViolated
                        (List.filter (fun m => negb (SFltb m (f32_of_f64 tolerance_s))) min_)
                        tolerance_s))).
Proof.
  intros Hopen Hseek Hframes.
  pose proof (scan_prefix_nonempty (List.last rest first_ts) _ Hframes) as Hne.
  set (pulled := scan_prefix (List.last rest first_ts) (reader_frames B r)) in *.
  destruct (torch_min_cdist (first_ts :: rest) pulled Hne)
    as (min_ & argmin_ & Hmin & Hl1 & Hl2 & Hsel).
  exists min_, argmin_.
  split; [exact Hsel|]. split; [exact Hl1|]. split; [exact Hl2|].
  assert (Hidx : forall idx, In idx argmin_ -> (idx < length pulled)%nat).
  { intros idx Hin. apply In_nth_error in Hin. destruct Hin as [i Hi].
    assert (Hlt : (i < length (first_ts :: rest))%nat)
      by (rewrite <- Hl2; apply nth_error_Some; congruence).
    destruct (nth_error (first_ts :: rest) i) as [q|] eqn:Hq;
      [|apply nth_error_None in Hq; lia].
    destruct (Hsel i q Hq) as (m & j & f & _ & Hj & Hf & _).
    assert (j = idx) by congruence. subst j.
    apply nth_error_Some. congruence. }
  intros tolerance_s log_loaded_timestamps. cbv zeta.
  run_to_seek Hopen. rewrite Hseek. autorewrite with run.
  rewrite scan_loop_prefix. fold pulled. autorewrite with run. cbn [app].
  rewrite Hmin. autorewrite with run. rewrite forallb_id_map, masked_select_filter.
  destruct (forallb (fun m => SFltb m (f32_of_f64 tolerance_s)) min_).
  - autorewrite with run.
    rewrite (list_comp_inr _ (fun j => nth j (List.map data pulled) [])).
    2:{ intros idx Hin. apply getitem_nat, nth_error_nth'.
        rewrite length_map. apply Hidx, Hin. }
    autorewrite with run.
    rewrite (list_comp_inr _ (fun j => nth j (List.map f32_of_f64 (List.map pts pulled))
                                           S754_nan)).
    2:{ intros idx Hin. apply getitem_nat, nth_error_nth'.
        rewrite !length_map. apply Hidx, Hin. }
    autorewrite with run.
    rewrite !length_map, Hl2, Nat.eqb_refl.
    rewrite List.map_map.
    destruct log_loaded_timestamps; autorewrite with run; unfold mret, M_ret;
      autorewrite with run; unfold open_seek_trace; cbn [app];
      rewrite ?app_nil_r; reflexivity.
  - autorewrite with run. unfold open_seek_trace. cbn [app].
    rewrite ?app_nil_r. reflexivity.
Qed.

(** Every call either leaves by an early exit or reaches the tolerance
    check. *)
Lemma decode_early_or_main (B : Backend) (video_path : Path) (timestamps : list float64)
    (device : string) :
  (exists tr e, early_exit B video_path timestamps device tr e) \/
  (exists first_ts rest r0 r,
      device = "cpu" /\ timestamps = first_ts :: rest /\
      open_reader B (str video_path) = inr r0 /\
      reader_seek B r0 first_ts = inr r /\
      reader_frames B r <> []).
Proof.
  destruct (String.eqb device "cpu") eqn:Hcpu.
  2:{ left. apply String.eqb_neq in Hcpu.
      destruct (String.eqb device "cuda") eqn:Hcuda.
      - apply String.eqb_eq in Hcuda. eexists _, _. apply exit_cuda, Hcuda.
      - apply String.eqb_neq in Hcuda. eexists _, _. apply exit_device; assumption. }
  apply String.eqb_eq in Hcpu.
  destruct (open_reader B (str video_path)) as [e|r0] eqn:Hopen.
  { left. eexists _, _. eapply exit_open; eassumption. }
  destruct timestamps as [|first_ts rest].
  { left. eexists _, _. eapply exit_no_timestamp; eauto. }
  destruct (reader_seek B r0 first_ts) as [e|r] eqn:Hseek.
  { left. eexists _, _. eapply exit_seek; eauto. }
  destruct (reader_frames B r) as [|f frames] eqn:Hframes.
  { left. eexists _, _. eapply exit_no_frame; eauto. }
  right. exists first_ts, rest, r0, r. rewrite Hframes. repeat split; auto; discriminate.
Qed.

(** ** What the trace of a run records *)

Lemma pulled_frames_scan_trace (log_loaded_timestamps : bool) (pulled : list Frame) :
  pulled_frames (scan_trace log_loaded_timestamps pulled) = pulled.
Proof.
  unfold pulled_frames, scan_trace. induction pulled as [|f pulled IH]; [reflexivity|].
  cbn [flat_map]. rewrite flat_map_app, IH.
  destruct log_loaded_timestamps; reflexivity.
Qed.

Lemma pulled_frames_run (video_path : Path) (first_ts : float64)
    (log_loaded_timestamps : bool) (pulled : list Frame) (msgs : list LogMsg) :
  pulled_frames (open_seek_trace video_path first_ts
                 ++ scan_trace log_loaded_timestamps pulled
                 ++ List.map LogInfo msgs) = pulled.
Proof.
  unfold pulled_frames at 1. rewrite !flat_map_app.
  fold (pulled_frames (scan_trace log_loaded_timestamps pulled)).
  rewrite pulled_frames_scan_trace. cbn [open_seek_trace flat_map app].
  assert (Hlogs : flat_map (fun ev => match ev with NextFrame f => [f] | _ => [] end)
                    (List.map LogInfo msgs) = []).
  { induction msgs as [|m msgs IH]; [reflexivity | exact IH]. }
  rewrite Hlogs, app_nil_r. reflexivity.
Qed.



(** The trace of a run that reaches the tolerance check, whatever its
    outcome: the prologue, the scan, and log messages. *)
Lemma decode_cpu_main_trace (B : Backend) (video_path : Path) (first_ts : float64)
    (rest : list float64) (tolerance_s : float64) (log_loaded_timestamps : bool)
    (r0 r : Reader B) :
  open_reader B (str video_path) = inr r0 ->
  reader_seek B r0 first_ts = inr r ->
  reader_frames B r <> [] ->
  exists msgs,
    fst (decode_video_frames_torchvision B video_path (first_ts :: rest) tolerance_s "cpu"
           log_loaded_timestamps)
    = open_seek_trace video_path first_ts
      ++ scan_trace log_loaded_timestamps
           (scan_prefix (List.last rest first_ts) (reader_frames B r))
      ++ List.map LogInfo msgs.
Proof.
  intros Hopen Hseek Hframes.
  destruct (decode_cpu_main B video_path first_ts rest r0 r Hopen Hseek Hframes)
    as (min_ & argmin_ & _ & _ & _ & Hout).
  rewrite Hout. cbv zeta.
  destruct (forallb (fun m => SFltb m (f32_of_f64 tolerance_s)) min_); cbn [fst].
  - destruct log_loaded_timestamps.
    + eexists [_]. reflexivity.
    + exists []. reflexivity.
  - exists []. cbn [List.map]. rewrite app_nil_r. reflexivity.
Qed.

(** A run that returns a result went through every stage: the device is the
    CPU, there is a first timestamp, the reader opened and the seek succeeded,
    the scan pulled at least one frame, every row minimum is within the
    tolerance, and the result is the normalised frame at each index. *)
Lemma decode_success_inv (B : Backend) (video_path : Path) (timestamps : list float64)
    (tolerance_s : float64) (device : string) (log_loaded_timestamps : bool)
    (tr : list Event) (result : list Tensor) :
  decode_video_frames_torchvision B video_path timestamps tolerance_s device
    log_loaded_timestamps = (tr, inr result) ->
  device = "cpu" /\
  exists first_ts rest r0 r min_ argmin_,
    timestamps = first_ts :: rest /\
    open_reader B (str video_path) = inr r0 /\
    reader_seek B r0 first_ts = inr r /\
    pulled_frames tr = scan_prefix (List.last rest first_ts) (reader_frames B r) /\
    (forall i q, nth_error timestamps i = Some q ->
       exists m j f, nth_error min_ i = Some m /\ nth_error argmin_ i = Some j /\
                     stable_nearest (pulled_frames tr) q j f /\ m = dist32 q (pts f)) /\
    length min_ = length timestamps /\
    length argmin_ = length timestamps /\
    forallb (fun m => SFltb m (f32_of_f64 tolerance_s)) min_ = true /\
    result = List.map (fun j => normalize (nth j (List.map data (pulled_frames tr)) []))
                      argmin_.
Proof.
  intros Hrun.
  destruct (decode_early_or_main B video_path timestamps device)
    as [(tr' & e' & Hexit) | (first_ts & rest & r0 & r & -> & -> & Hopen & Hseek & Hframes)].
  { rewrite (decode_early_exit _ _ _ _ _ _ Hexit) in Hrun. discriminate. }
  split; [reflexivity|].
  destruct (decode_cpu_main B video_path first_ts rest r0 r Hopen Hseek Hframes)
    as (min_ & argmin_ & Hsel & Hl1 & Hl2 & Hout).
  rewrite Hout in Hrun. cbv zeta in Hrun.
  set (pulled := scan_prefix (List.last rest first_ts) (reader_frames B r)) in *.
  destruct (forallb (fun m => SFltb m (f32_of_f64 tolerance_s)) min_) eqn:Htol;
    [|discriminate].
  pose proof (f_equal fst Hrun) as Htr. cbn [fst] in Htr.
  assert (Hres : result
            = List.map (fun j => normalize (nth j (List.map data pulled) [])) argmin_)
    by congruence.
  clear Hrun. subst tr result.
  assert (Hpulled : pulled_frames
            (open_seek_trace video_path first_ts ++ scan_trace log_loaded_timestamps pulled
             ++ (if log_loaded_timestamps
                 then [LogInfo (ClosestTs
                         (List.map (fun j => nth j (List.map f32_of_f64 (List.map pts pulled))
                                                 S754_nan) argmin_))]
                 else [])) = pulled).
  { destruct log_loaded_timestamps.
    - apply (pulled_frames_run _ _ _ _ [ClosestTs _]).
    - apply (pulled_frames_run _ _ _ _ []). }
  rewrite Hpulled.
  exists first_ts, rest, r0, r, min_, argmin_.
  repeat (split; [assumption || reflexivity|]).
  split; [|repeat split; assumption || reflexivity].
  intros i q Hq. destruct (Hsel i q Hq) as (m & j & f & Hm & Hj & Hf & Hmd & Hst).
  exists m, j, f. repeat split; try assumption; apply Hst.
  all: pose proof (proj1 (forallb_forall _ _) Htol m (nth_error_In _ _ Hm)) as Hlt;
    cbv beta in Hlt; apply SFltb_not_nan in Hlt; apply Hlt.
Qed.

Lemma decode_pulled_frames (B : Backend) (video_path : Path) (first_ts : float64)
    (rest : list float64) (tolerance_s : float64) (log_loaded_timestamps : bool)
    (r0 r : Reader B) :
  open_reader B (str video_path) = inr r0 ->
  reader_seek B r0 first_ts = inr r ->
  pulled_frames
    (fst (decode_video_frames_torchvision B video_path (first_ts :: rest) tolerance_s "cpu"
            log_loaded_timestamps))
  = scan_prefix (List.last rest first_ts) (reader_frames B r).
Proof.
  intros Hopen Hseek.
  destruct (reader_frames B r) as [|f0 frames] eqn:Hframes.
  - rewrite (decode_early_exit B video_path (first_ts :: rest) "cpu" _ _
               (exit_no_frame B video_path _ "cpu" r0 first_ts rest r
                  eq_refl Hopen eq_refl Hseek Hframes)).
    reflexivity.
  - destruct (decode_cpu_main_trace B video_path first_ts rest tolerance_s
                log_loaded_timestamps r0 r Hopen Hseek) as [msgs Htr].
    { rewrite Hframes. discriminate. }
    rewrite Htr, Hframes. apply pulled_frames_run.
Qed.


Lemma nth_map_nth_error {A B : Type} (g : A -> B) (l : list A) (j : nat) (x : A) (d : B) :
  nth_error l j = Some x -> nth j (List.map g l) d = g x.
Proof.
  intros H. apply nth_error_nth. rewrite nth_error_map, H. reflexivity.
Qed.




(** * The claims *)

(** ** Device selection *)

(** C8: with [device="cuda"] the function raises [NotImplementedError] at
    once, whatever the other arguments and the backend are: the trace is
    empty, so no video backend was selected and no reader was opened, and no
    decoding on the CPU took place. *)
Theorem decode_cuda_not_implemented (B : Backend) (video_path : Path)
    (timestamps : list float64) (tolerance_s : float64) (log_loaded_timestamps : bool) :
  decode_video_frames_torchvision B video_path timestamps tolerance_s "cuda"
    log_loaded_timestamps
  = ([], inl (NotImplementedError "")).
Proof. apply decode_cuda. Qed.

(** C10: a device other than ["cpu"] and ["cuda"] raises [ValueError]
    carrying the device string, with an empty trace: no reader was opened. *)
Theorem decode_unknown_device_value_error (B : Backend) (video_path : Path)
    (timestamps : list float64) (tolerance_s : float64) (device : string)
    (log_loaded_timestamps : bool) :
  device <> "cpu" -> device <> "cuda" ->
  decode_video_frames_torchvision B video_path timestamps tolerance_s device
    log_loaded_timestamps
  = ([], inl (ValueError device)).
Proof. apply decode_other_device. Qed.

Lemma decode_unknown_device_value_error_witness :
  "mps" <> "cpu" /\ "mps" <> "cuda" /\
  decode_video_frames_torchvision example_backend episode_0_path [f64 12 10] (f64 6 100)
    "mps" true
  = ([], inl (ValueError "mps")).
Proof.
  split; [discriminate | split; [discriminate |]].
  apply (decode_unknown_device_value_error example_backend episode_0_path
           [f64 12 10] (f64 6 100) "mps" true); discriminate.
Defined.

(** ** No requested timestamp *)

(** C2, as stated, fails: on the empty list of timestamps the function does
    not return an empty result, it raises [IndexError] when it reads
    [timestamps[0]], after the reader was opened. *)
Lemma decode_empty_timestamps_cex :
  decode_video_frames_torchvision example_backend episode_0_path [] (f64 6 100) "cpu" false
  = ([SetVideoBackend "pyav"; OpenReader "data/videos/episode_0.mp4"], inl IndexError).
Proof. vm_compute. reflexivity. Qed.

(** C2, amended: on the CPU backend, once the reader is open, the empty list
    of timestamps raises [IndexError]; the reader was opened and neither a
    seek nor a scan took place. *)
Theorem decode_empty_timestamps_index_error (B : Backend) (video_path : Path)
    (tolerance_s : float64) (log_loaded_timestamps : bool) (r0 : Reader B) :
  open_reader B (str video_path) = inr r0 ->
  decode_video_frames_torchvision B video_path [] tolerance_s "cpu" log_loaded_timestamps
  = ([SetVideoBackend "pyav"; OpenReader (str video_path)], inl IndexError).
Proof. apply decode_cpu_no_timestamps. Qed.

Lemma decode_empty_timestamps_index_error_witness :
  open_reader example_backend (str episode_0_path)
  = inr {| cursor_video := episode_0; cursor_index := 0 |} /\
  decode_video_frames_torchvision example_backend episode_0_path [] (f64 6 100) "cpu" true
  = ([SetVideoBackend "pyav"; OpenReader (str episode_0_path)], inl IndexError).
Proof.
  split; [vm_compute; reflexivity |].
  apply (decode_empty_timestamps_index_error example_backend episode_0_path (f64 6 100) true
           {| cursor_video := episode_0; cursor_index := 0 |}).
  vm_compute. reflexivity.
Defined.

(** ** Timestamps outside the stream *)




(** ** The scan loop *)

(** The scan after a seek to 1.0 s (key frame 10) towards the last request
    1.25 s: frames 10 to 13 are pulled, frame 13 (1.3 s) being the first at or
    after 1.25 s. *)
Example scan_loop_episode_0 :
  scan_loop false (f64 125 100)
    (reader_frames example_backend {| cursor_video := episode_0; cursor_index := 10 |})
    [] []
  = ([ NextFrame {| pts := f64 10 10; data := [10] |};
       NextFrame {| pts := f64 11 10; data := [11] |};
       NextFrame {| pts := f64 12 10; data := [12] |};
       NextFrame {| pts := f64 13 10; data := [13] |} ],
     inr ([[10]; [11]; [12]; [13]], [f64 10 10; f64 11 10; f64 12 10; f64 13 10])).
Proof. vm_compute. reflexivity. Qed.

(** C5: in a run of [decode_video_frames_torchvision] whose reader opened and
    whose seek succeeded, let [last_ts] be the last requested timestamp and
    [pulled] the frames the run pulled from the reader.  The scan loop
    recorded the buffer and the timestamp of every pulled frame, in order,
    and [pulled] is a prefix of the frames the reader yields that ends in one
    of two ways: the reader is exhausted, every frame was pulled and none
    satisfied [pts >= last_ts]; or the last pulled frame is the first frame
    with [pts >= last_ts], which no frame before it satisfied. *)
Theorem decode_scans_to_last_requested (B : Backend) (video_path : Path)
    (first_ts : float64) (rest : list float64) (tolerance_s : float64)
    (log_loaded_timestamps : bool) (r0 r : Reader B) :
  open_reader B (str video_path) = inr r0 ->
  reader_seek B r0 first_ts = inr r ->
  let last_ts := List.last rest first_ts in
  let frames := reader_frames B r in
  let pulled :=
    pulled_frames
      (fst (decode_video_frames_torchvision B video_path (first_ts :: rest) tolerance_s
              "cpu" log_loaded_timestamps)) in
  scan_loop log_loaded_timestamps last_ts frames [] []
  = (scan_trace log_loaded_timestamps pulled,
     inr (List.map data pulled, List.map pts pulled)) /\
  ((pulled = frames /\ Forall (fun g => SFleb last_ts (pts g) = false) frames) \/
   (exists before f after,
      frames = before ++ f :: after /\ pulled = before ++ [f] /\
      Forall (fun g => SFleb last_ts (pts g) = false) before /\
      SFleb last_ts (pts f) = true)).
Proof.
  intros Hopen Hseek. cbv zeta.
  rewrite (decode_pulled_frames B video_path first_ts rest tolerance_s
             log_loaded_timestamps r0 r Hopen Hseek).
  split; [apply scan_loop_prefix | apply scan_prefix_stop].
Qed.

Lemma decode_scans_to_last_requested_witness :
  let r0 := {| cursor_video := episode_0; cursor_index := 0 |} in
  let r := {| cursor_video := episode_0; cursor_index := 10 |} in
  let last_ts := f64 125 100 in
  let frames := reader_frames example_backend r in
  let pulled :=
    pulled_frames
      (fst (decode_video_frames_torchvision example_backend episode_0_path
              [f64 10 10; f64 125 100] (f64 6 100) "cpu" false)) in
  open_reader example_backend (str episode_0_path) = inr r0 /\
  reader_seek example_backend r0 (f64 10 10) = inr r /\
  pulled = [ {| pts := f64 10 10; data := [10] |}; {| pts := f64 11 10; data := [11] |};
             {| pts := f64 12 10; data := [12] |}; {| pts := f64 13 10; data := [13] |} ] /\
  scan_loop false last_ts frames [] []
  = (scan_trace false pulled, inr (List.map data pulled, List.map pts pulled)) /\
  ((pulled = frames /\ Forall (fun g => SFleb last_ts (pts g) = false) frames) \/
   (exists before f after,
      frames = before ++ f :: after /\ pulled = before ++ [f] /\
      Forall (fun g => SFleb last_ts (pts g) = false) before /\
      SFleb last_ts (pts f) = true)).
Proof.
  cbv zeta. split; [vm_compute; reflexivity |]. split; [vm_compute; reflexivity |].
  split; [vm_compute; reflexivity |].
  apply (decode_scans_to_last_requested example_backend episode_0_path (f64 10 10)
           [f64 125 100] (f64 6 100) false
           {| cursor_video := episode_0; cursor_index := 0 |}
           {| cursor_video := episode_0; cursor_index := 10 |});
    vm_compute; reflexivity.
Defined.

(** ** Nearest-frame selection *)

(** C6, as stated, fails: the distances are computed on float32 tensors.
    For the request 0.15 the scan loads the frames at 0.0, 0.1 and 0.2, and
    the function returns frame 2, although the timestamp of frame 1 is
    strictly nearer to the request: rounded to float32, the distance to 0.2
    is the smaller one. *)
Lemma nearest_in_float32_only_cex :
  let q := f64 15 100 in
  let run := decode_video_frames_torchvision example_backend episode_0_path [q]
               (f64 6 100) "cpu" false in
  pulled_frames (fst run)
  = [ {| pts := f64 0 10; data := [0] |}; {| pts := f64 1 10; data := [1] |};
      {| pts := f64 2 10; data := [2] |} ] /\
  snd run = inr [normalize [2]] /\
  (Qabs (SF2Q q - SF2Q (f64 1 10)) < Qabs (SF2Q q - SF2Q (f64 2 10)))%Q /\
  SFltb (dist32 q (f64 2 10)) (dist32 q (f64 1 10)) = true.
Proof. vm_compute. repeat split. Qed.

(** C6, amended: when the function returns, it returns one tensor per
    request, and the tensor at position [i] is the normalised buffer of a
    loaded frame [f], at index [j] of the frames pulled from the reader, such
    that, in the float32 distance the code computes, no loaded frame is
    nearer to the request and every loaded frame before [f] is strictly
    farther: the first frame among the nearest ones. *)
Theorem decode_selects_first_nearest_frame (B : Backend) (video_path : Path)
    (timestamps : list float64) (tolerance_s : float64) (device : string)
    (log_loaded_timestamps : bool) (tr : list Event) (result : list Tensor) :
  decode_video_frames_torchvision B video_path timestamps tolerance_s device
    log_loaded_timestamps = (tr, inr result) ->
  length result = length timestamps /\
  forall i q, nth_error timestamps i = Some q ->
    exists j f,
      nth_error (pulled_frames tr) j = Some f /\
      nth_error result i = Some (normalize (data f)) /\
      (forall k g, nth_error (pulled_frames tr) k = Some g ->
                   SFleb (dist32 q (pts f)) (dist32 q (pts g)) = true) /\
      (forall k g, (k < j)%nat -> nth_error (pulled_frames tr) k = Some g ->
                   SFltb (dist32 q (pts f)) (dist32 q (pts g)) = true).
Proof.
  intros Hrun.
  destruct (decode_success_inv _ _ _ _ _ _ _ _ Hrun)
    as (_ & first_ts & rest & r0 & r & min_ & argmin_ & _ & _ & _ & _ & Hsel & _ & Hlen
        & _ & ->).
  split; [rewrite length_map; exact Hlen|].
  intros i q Hq. destruct (Hsel i q Hq) as (m & j & f & _ & Hj & (Hf & Hle & Hlt) & _).
  exists j, f. split; [exact Hf|]. split; [|split; assumption].
  rewrite nth_error_map, Hj. cbn [option_map].
  rewrite (nth_map_nth_error data _ _ _ _ Hf). reflexivity.
Qed.

Lemma decode_selects_first_nearest_frame_witness :
  let timestamps := [f64 5 100; f64 15 100; f64 285 100] in
  let tr := fst (decode_video_frames_torchvision example_backend episode_0_path
                   timestamps (f64 6 100) "cpu" false) in
  let result := [normalize [0]; normalize [2]; normalize [28]] in
  decode_video_frames_torchvision example_backend episode_0_path timestamps (f64 6 100)
    "cpu" false = (tr, inr result) /\
  length result = length timestamps /\
  forall i q, nth_error timestamps i = Some q ->
    exists j f,
      nth_error (pulled_frames tr) j = Some f /\
      nth_error result i = Some (normalize (data f)) /\
      (forall k g, nth_error (pulled_frames tr) k = Some g ->
                   SFleb (dist32 q (pts f)) (dist32 q (pts g)) = true) /\
      (forall k g, (k < j)%nat -> nth_error (pulled_frames tr) k = Some g ->
                   SFltb (dist32 q (pts f)) (dist32 q (pts g)) = true).
Proof.
  cbv zeta. split; [vm_compute; reflexivity |].
  apply (decode_selects_first_nearest_frame example_backend episode_0_path
           [f64 5 100; f64 15 100; f64 285 100] (f64 6 100) "cpu" false).
  vm_compute. reflexivity.
Defined.

(** ** Tolerance: all or nothing *)




(** ** Normalisation *)





(** ** load_from_videos *)

Lemma decode_success_length (B : Backend) (video_path : Path) (timestamps : list float64)
    (tolerance_s : float64) (device : string) (log_loaded_timestamps : bool)
    (tr : list Event) (result : list Tensor) :
  decode_video_frames_torchvision B video_path timestamps tolerance_s device
    log_loaded_timestamps = (tr, inr result) ->
  length result = length timestamps.
Proof.
  intros Hrun.
  destruct (decode_success_inv _ _ _ _ _ _ _ _ Hrun)
    as (_ & first_ts & rest & r0 & r & min_ & argmin_ & _ & _ & _ & _ & _ & _ & Hlen
        & _ & ->).
  rewrite length_map. exact Hlen.
Qed.

Lemma load_key_inv (B : Backend) (data_dir : Path) (tolerance_s : float64)
    (item : gmap string ItemValue) (key : string) (tr : list Event)
    (item1 : gmap string ItemValue) :
  load_key B data_dir tolerance_s item key = (tr, inr item1) ->
  exists v, item1 = <[key := v]> item /\
            resolved_entry B data_dir tolerance_s (item !! key) (Some v).
Proof.
  unfold load_key, dict_getitem. intros Hrun.
  destruct (item !! key) as [[ref | refs | t | ts]|] eqn:Hkey;
    autorewrite with run in Hrun; try discriminate.
  - apply bind_inr_inv in Hrun. destruct Hrun as (tr1 & frames & tr2 & Hdec & Hrest & _).
    pose proof (decode_success_length _ _ _ _ _ _ _ _ Hdec) as Hlen.
    destruct frames as [|frame [|? ?]]; try discriminate.
    rewrite getitem_first in Hrest. autorewrite with run in Hrest.
    injection Hrest as _ <-.
    exists (VTensor frame). split; [reflexivity|].
    left. exists ref, tr1, frame. auto.
  - apply bind_inr_inv in Hrun. destruct Hrun as (tr0 & [] & tr1 & _ & Hrun & _).
    destruct refs as [|ref0 refs].
    { cbn [List.map] in Hrun. rewrite getitem_nil in Hrun.
      autorewrite with run in Hrun. discriminate. }
    cbn [List.map] in Hrun. rewrite getitem_first in Hrun. autorewrite with run in Hrun.
    apply bind_inr_inv in Hrun. destruct Hrun as (tr2 & frames & tr3 & Hdec & Hrest & _).
    injection Hrest as _ <-.
    pose proof (decode_success_length _ _ _ _ _ _ _ _ Hdec) as Hlen.
    exists (VTensorStack frames). split; [reflexivity|].
    right. exists (ref0 :: refs), ref0, tr2, frames.
    repeat split; try reflexivity; try exact Hdec.
    rewrite Hlen. cbn [length]. rewrite length_map. reflexivity.
Qed.

Lemma resolved_entry_not_tensor (B : Backend) (data_dir : Path) (tolerance_s : float64)
    (v : ItemValue) (after : option ItemValue) :
  resolved_entry B data_dir tolerance_s (Some v) after ->
  match v with VTensor _ | VTensorStack _ => False | _ => True end.
Proof.
  intros [(ref & ? & ? & [= ->] & _) | (refs & ? & ? & ? & [= ->] & _)]; exact I.
Qed.

Lemma resolved_entry_tensor (B : Backend) (data_dir : Path) (tolerance_s : float64)
    (before : option ItemValue) (v : ItemValue) :
  resolved_entry B data_dir tolerance_s before (Some v) ->
  match v with VTensor _ | VTensorStack _ => True | _ => False end.
Proof.
  intros [(? & ? & ? & _ & _ & [= ->]) | (? & ? & ? & ? & _ & _ & _ & _ & [= ->])]; exact I.
Qed.

Lemma for_each_load_key_inv (B : Backend) (data_dir : Path) (tolerance_s : float64)
    (keys : list string) :
  forall (item : gmap string ItemValue) (tr : list Event) (item' : gmap string ItemValue),
    for_each (load_key B data_dir tolerance_s) keys item = (tr, inr item') ->
    (forall key, In key keys ->
       resolved_entry B data_dir tolerance_s (item !! key) (item' !! key)) /\
    (forall key, ~ In key keys -> item' !! key = item !! key).
Proof.
  induction keys as [|k keys IH]; intros item tr item' Hrun.
  - injection Hrun as _ <-. split; [intros key [] | reflexivity].
  - cbn [for_each] in Hrun. apply bind_inr_inv in Hrun.
    destruct Hrun as (tr1 & item1 & tr2 & Hkey & Hrest & _).
    destruct (IH item1 tr2 item' Hrest) as [Hin Hout].
    destruct (load_key_inv _ _ _ _ _ _ _ Hkey) as (v & -> & Hv).
    assert (Hfresh : ~ In k keys).
    { intros Hk. specialize (Hin k Hk). rewrite lookup_insert_eq in Hin.
      apply resolved_entry_not_tensor in Hin.
      apply resolved_entry_tensor in Hv. destruct v; contradiction. }
    split.
    + intros key [<- | Hkeys].
      * rewrite (Hout k Hfresh), lookup_insert_eq. exact Hv.
      * assert (Hne : k <> key) by (intros ->; contradiction).
        specialize (Hin key Hkeys). rewrite lookup_insert_ne in Hin by exact Hne.
        exact Hin.
    + intros key Hnot.
      assert (Hne : k <> key) by (intros ->; apply Hnot; left; reflexivity).
      rewrite (Hout key) by (intros Hk; apply Hnot; right; exact Hk).
      apply lookup_insert_ne. exact Hne.
Qed.

Example resolve_against_parent :
  str (truediv (parent example_videos_dir) "videos/episode_0.mp4")
  = "data/videos/episode_0.mp4".
Proof. reflexivity. Qed.

(** ** The guard on the paths of a list of references *)

Lemma same_paths_set (p : string) (refs : list VideoFrame) :
  Forall (fun r => path r = p) refs ->
  (list_to_set (List.map path refs) : gset string) ⊆ {[ p ]}.
Proof.
  induction 1 as [|r refs Hr _ IH]; cbn [List.map list_to_set]; set_solver.
Qed.

(** The guard of line 24 fires exactly when it should not: a non-empty list
    of references that all share one path is rejected. *)
Lemma load_key_same_paths (B : Backend) (data_dir : Path) (tolerance_s : float64)
    (item : gmap string ItemValue) (key : string) (ref : VideoFrame)
    (refs : list VideoFrame) :
  item !! key = Some (VFrameRefList (ref :: refs)) ->
  Forall (fun r => path r = path ref) refs ->
  load_key B data_dir tolerance_s item key
  = ([], inl (NotImplementedError "All video paths are expected to be the same for now.")).
Proof.
  intros Hkey Hsame. unfold load_key, dict_getitem. rewrite Hkey.
  autorewrite with run.
  assert (Hset : (list_to_set (List.map path (ref :: refs)) : gset string)
                 = {[ path ref ]}).
  { pose proof (same_paths_set (path ref) refs Hsame) as Hsub.
    cbn [List.map list_to_set]. set_solver. }
  rewrite Hset, size_singleton.
  destruct (decide (1%nat = 1%nat)) as [_|Hne]; [|congruence].
  autorewrite with run. reflexivity.
Qed.

(** A list of references with two different paths passes the guard, and the
    frames of all references are decoded from the path of the first one. *)
Lemma load_key_distinct_paths (B : Backend) (data_dir : Path) (tolerance_s : float64)
    (item : gmap string ItemValue) (key : string) (ref0 r1 r2 : VideoFrame)
    (refs : list VideoFrame) :
  item !! key = Some (VFrameRefList (ref0 :: refs)) ->
  In r1 (ref0 :: refs) -> In r2 (ref0 :: refs) -> path r1 <> path r2 ->
  load_key B data_dir tolerance_s item key
  = (frames ← decode_video_frames_torchvision B (truediv data_dir (path ref0))
                (List.map timestamp (ref0 :: refs)) tolerance_s "cpu" false;
     mret (<[key := VTensorStack frames]> item)).
Proof.
  intros Hkey H1 H2 Hne. unfold load_key, dict_getitem. rewrite Hkey.
  autorewrite with run.
  destruct (decide (size (list_to_set (List.map path (ref0 :: refs)) : gset string)
                    = 1%nat)) as [Hsize|_].
  - exfalso. apply size_1_elem_of in Hsize. destruct Hsize as [p Hp].
    assert (Hin : forall r, In r (ref0 :: refs) -> path r = p).
    { intros r Hr.
      assert (path r ∈ (list_to_set (List.map path (ref0 :: refs)) : gset string)).
      { apply elem_of_list_to_set, list_elem_of_In, in_map, Hr. }
      set_solver. }
    apply Hne. rewrite (Hin r1 H1), (Hin r2 H2). reflexivity.
  - autorewrite with run. cbn [List.map]. rewrite getitem_first.
    autorewrite with run. reflexivity.
Qed.

(** C1: the code at a list of two references to the same video, and at a
    list of references to two different videos.  The first is rejected with
    [NotImplementedError] before any decoding; the second is accepted, and
    both frames are decoded from the first video. *)
Theorem load_from_videos_guard_inverted :
  load_from_videos example_backend
    {[ "observation.images" :=
         VFrameRefList [ {| path := "videos/episode_0.mp4"; timestamp := f64 1 10 |};
                         {| path := "videos/episode_0.mp4"; timestamp := f64 2 10 |} ] ]}
    ["observation.images"] example_videos_dir (f64 6 100)
  = ([], inl (NotImplementedError "All video paths are expected to be the same for now."))
  /\
  load_from_videos example_backend
    {[ "observation.images" :=
         VFrameRefList [ {| path := "videos/episode_0.mp4"; timestamp := f64 1 10 |};
                         {| path := "videos/episode_1.mp4"; timestamp := f64 2 10 |} ] ]}
    ["observation.images"] example_videos_dir (f64 6 100)
  = ([ SetVideoBackend "pyav"; OpenReader "data/videos/episode_0.mp4"; Seek (f64 1 10);
       NextFrame {| pts := f64 0 10; data := [0] |};
       NextFrame {| pts := f64 1 10; data := [1] |};
       NextFrame {| pts := f64 2 10; data := [2] |} ],
     inr {[ "observation.images" := VTensorStack [normalize [1]; normalize [2]] ]}).
Proof. split; vm_compute; reflexivity. Qed.

(** C9: the code at an item whose first key holds one frame reference and
    whose second key holds a list of two references to one video.  The first
    key is decoded; at the second key the guard of line 24 raises
    [NotImplementedError], so the call does not return and the list is not
    replaced by a sequence of tensors. *)
Theorem load_from_videos_one_video_list_raises :
  load_from_videos example_backend example_item_one_video example_keys example_videos_dir
    (f64 6 100)
  = ([ SetVideoBackend "pyav"; OpenReader "data/videos/episode_0.mp4"; Seek (f64 1 10);
       NextFrame {| pts := f64 0 10; data := [0] |};
       NextFrame {| pts := f64 1 10; data := [1] |} ],
     inl (NotImplementedError "All video paths are expected to be the same for now.")).
Proof. vm_compute. reflexivity. Qed.

(** * Further properties of the code *)

(** ** What [decode_video_frames_torchvision] can raise *)



(** ** Logging and tolerance do not change what is selected *)

Lemma backend_events_scan_trace (log_loaded_timestamps : bool) (pulled : list Frame) :
  backend_events (scan_trace log_loaded_timestamps pulled) = scan_trace false pulled.
Proof.
  unfold backend_events, scan_trace.
  induction pulled as [|f pulled IH]; [reflexivity|].
  cbn [flat_map]. rewrite List.filter_app, IH.
  destruct log_loaded_timestamps; reflexivity.
Qed.

Lemma early_exit_no_log (B : Backend) (video_path : Path) (timestamps : list float64)
    (device : string) (tr : list Event) (e : Exception) :
  early_exit B video_path timestamps device tr e -> backend_events tr = tr.
Proof. intros []; reflexivity. Qed.

(** X2: [log_loaded_timestamps] is purely observational.  With and without
    it the function returns the same result or raises the same exception, and
    the traces differ by the log messages only: the backend is driven through
    the same calls and the same frames are pulled. *)
Theorem decode_logging_is_observational (B : Backend) (video_path : Path)
    (timestamps : list float64) (tolerance_s : float64) (device : string) :
  snd (decode_video_frames_torchvision B video_path timestamps tolerance_s device true)
  = snd (decode_video_frames_torchvision B video_path timestamps tolerance_s device false)
  /\
  backend_events
    (fst (decode_video_frames_torchvision B video_path timestamps tolerance_s device true))
  = fst (decode_video_frames_torchvision B video_path timestamps tolerance_s device false).
Proof.
  destruct (decode_early_or_main B video_path timestamps device)
    as [(tr & e & Hexit) | (first_ts & rest & r0 & r & -> & -> & Hopen & Hseek & Hframes)].
  - rewrite !(decode_early_exit _ _ _ _ _ _ Hexit). cbn [fst snd].
    split; [reflexivity | eapply early_exit_no_log, Hexit].
  - destruct (decode_cpu_main B video_path first_ts rest r0 r Hopen Hseek Hframes)
      as (min_ & argmin_ & _ & _ & _ & Hout).
    rewrite !Hout. cbv zeta.
    destruct (forallb (fun m => SFltb m (f32_of_f64 tolerance_s)) min_); cbn [fst snd];
      (split; [reflexivity|]); unfold backend_events; rewrite !List.filter_app;
      fold (backend_events (scan_trace true
              (scan_prefix (List.last rest first_ts) (reader_frames B r))));
      rewrite backend_events_scan_trace; cbn; rewrite ?app_nil_r; reflexivity.
Qed.



(** ** Requests at timestamps of the stream *)

Lemma last_In {A : Type} (x : A) (l : list A) : In (List.last l x) (x :: l).
Proof.
  revert x. induction l as [|y l IH]; intros x.
  - left. reflexivity.
  - right. rewrite last_cons. apply IH.
Qed.















(** ** Tolerances and timestamps that can never be met *)

Lemma SFabs_ltb_positive (x t : spec_float) :
  SFltb (SFabs x) t = true -> SFltb f32_zero t = true.
Proof.
  unfold SFltb, f32_zero.
  destruct x as [sx|sx| |sx mx ex], t as [st|st| |st mt et];
    cbn [SFabs SFcompare]; try discriminate; try reflexivity;
    destruct st; try discriminate; reflexivity.
Qed.

(** X20: the test [min_ < tolerance_s] is strict and made in float32: a call
    that returns was given a tolerance whose float32 value is strictly
    positive.  A tolerance that is zero, negative or NaN, or so small that it
    rounds to zero in float32, lets no call return. *)
Theorem decode_returns_positive_tolerance (B : Backend) (video_path : Path)
    (timestamps : list float64) (tolerance_s : float64) (device : string)
    (log_loaded_timestamps : bool) (tr : list Event) (result : list Tensor) :
  decode_video_frames_torchvision B video_path timestamps tolerance_s device
    log_loaded_timestamps = (tr, inr result) ->
  SFltb f32_zero (f32_of_f64 tolerance_s) = true.
Proof.
  intros Hrun.
  destruct (decode_success_inv _ _ _ _ _ _ _ _ Hrun)
    as (_ & first_ts & rest & r0 & r & min_ & argmin_ & -> & _ & _ & _ & Hsel & _ & _
        & Htol & _).
  destruct (Hsel 0%nat first_ts eq_refl) as (m & j & f & Hm & _ & _ & ->).
  pose proof (proj1 (forallb_forall _ _) Htol _ (nth_error_In _ _ Hm)) as Hlt.
  cbv beta in Hlt. unfold dist32 in Hlt. eapply SFabs_ltb_positive, Hlt.
Qed.

Lemma decode_returns_positive_tolerance_witness :
  let run := decode_video_frames_torchvision example_backend episode_0_path
               [f64 5 100; f64 155 100; f64 285 100] (f64 6 100) "cpu" false in
  run = (fst run, inr [normalize [0]; normalize [15]; normalize [28]]) /\
  SFltb f32_zero (f32_of_f64 (f64 6 100)) = true /\
  f32_of_f64 (f64 1 (10 ^ 50)) = f32_zero /\
  snd (decode_video_frames_torchvision example_backend episode_0_path [f64 1 10]
         (f64 1 (10 ^ 50)) "cpu" false)
  = inl (AssertionError (ToleranceViolated [f32_zero] (f64 1 (10 ^ 50)))).
Proof.
  cbv zeta. split; [vm_compute; reflexivity |]. split.
  - apply (decode_returns_positive_tolerance example_backend episode_0_path
             [f64 5 100; f64 155 100; f64 285 100] (f64 6 100) "cpu" false
             (fst (decode_video_frames_torchvision example_backend episode_0_path
                     [f64 5 100; f64 155 100; f64 285 100] (f64 6 100) "cpu" false))
             [normalize [0]; normalize [15]; normalize [28]]).
    vm_compute. reflexivity.
  - split; vm_compute; reflexivity.
Defined.

(** X21: a request that contains a NaN timestamp never returns: the float32
    distance of a NaN to every loaded timestamp is NaN, which is below no
    tolerance. *)
Theorem decode_nan_timestamp_never_returns (B : Backend) (video_path : Path)
    (timestamps : list float64) (tolerance_s : float64) (device : string)
    (log_loaded_timestamps : bool) :
  In S754_nan timestamps ->
  exists tr e,
    decode_video_frames_torchvision B video_path timestamps tolerance_s device
      log_loaded_timestamps = (tr, inl e).
Proof.
  intros Hin.
  destruct (decode_video_frames_torchvision B video_path timestamps tolerance_s device
              log_loaded_timestamps) as [tr [e|result]] eqn:Hrun; [eauto|].
  exfalso.
  destruct (decode_success_inv _ _ _ _ _ _ _ _ Hrun)
    as (_ & first_ts & rest & r0 & r & min_ & argmin_ & _ & _ & _ & _ & Hsel & _ & _
        & Htol & _).
  apply In_nth_error in Hin. destruct Hin as [i Hi].
  destruct (Hsel i S754_nan Hi) as (m & j & f & Hm & _ & _ & ->).
  pose proof (proj1 (forallb_forall _ _) Htol _ (nth_error_In _ _ Hm)) as Hlt.
  cbv beta in Hlt. unfold dist32, f32_sub in Hlt. cbn in Hlt. discriminate.
Qed.

Lemma decode_nan_timestamp_never_returns_witness :
  In S754_nan [f64 1 10; S754_nan] /\
  snd (decode_video_frames_torchvision example_backend episode_0_path [f64 1 10; S754_nan]
         (f64 6 100) "cpu" false)
  = inl (AssertionError (ToleranceViolated [S754_nan] (f64 6 100))) /\
  exists tr e,
    decode_video_frames_torchvision example_backend episode_0_path [f64 1 10; S754_nan]
      (f64 6 100) "cpu" false = (tr, inl e).
Proof.
  split; [right; left; reflexivity |]. split; [vm_compute; reflexivity |].
  apply (decode_nan_timestamp_never_returns example_backend episode_0_path
           [f64 1 10; S754_nan] (f64 6 100) "cpu" false).
  right. left. reflexivity.
Defined.


(** ** [load_from_videos]: what it leaves alone, and when it cannot return *)

Lemma for_each_app {A S : Type} (body : S -> A -> M S) (xs ys : list A) (s : S) :
  for_each body (xs ++ ys) s = for_each body xs s ≫= for_each body ys.
Proof.
  revert s. induction xs as [|x xs IH]; intros s.
  - cbn [app for_each]. rewrite bind_ret. reflexivity.
  - cbn [app for_each]. destruct (body s x) as [tr [e|s']].
    + rewrite !bind_err. reflexivity.
    + rewrite !bind_ok, IH, bind_prepend. reflexivity.
Qed.

(** X5: a call that returns has replaced the entries of [video_frame_keys]
    and nothing else: every other entry of the item is unchanged, and the item
    has the same keys as before. *)
Theorem load_from_videos_frame (B : Backend) (item : gmap string ItemValue)
    (video_frame_keys : list string) (videos_dir : Path) (tolerance_s : float64)
    (tr : list Event) (item' : gmap string ItemValue) :
  load_from_videos B item video_frame_keys videos_dir tolerance_s = (tr, inr item') ->
  dom item' = dom item /\
  forall key, ~ In key video_frame_keys -> item' !! key = item !! key.
Proof.
  intros Hrun. unfold load_from_videos in Hrun.
  destruct (for_each_load_key_inv _ _ _ _ _ _ _ Hrun) as [Hin Hout].
  split; [|exact Hout].
  apply set_eq. intros key. rewrite !elem_of_dom.
  destruct (in_dec string_dec key video_frame_keys) as [Hk|Hk].
  - destruct (Hin key Hk) as [(? & ? & ? & -> & _ & ->) | (? & ? & ? & ? & -> & _ & _ & _ & ->)];
      split; intros _; eexists; reflexivity.
  - rewrite (Hout key Hk). reflexivity.
Qed.

Lemma load_from_videos_frame_witness :
  let run := load_from_videos example_backend
               (<["action" := VTensor [f32_one]]> example_item) example_keys
               example_videos_dir (f64 6 100) in
  let item' := match snd run with inr it => it | inl _ => ∅ end in
  run = (fst run, inr item') /\
  dom item' = dom (<["action" := VTensor [f32_one]]> example_item) /\
  forall key, ~ In key example_keys ->
    item' !! key = (<["action" := VTensor [f32_one]]> example_item) !! key.
Proof.
  cbv zeta. split; [vm_compute; reflexivity |].
  apply (load_from_videos_frame example_backend
           (<["action" := VTensor [f32_one]]> example_item) example_keys
           example_videos_dir (f64 6 100)
           (fst (load_from_videos example_backend
                   (<["action" := VTensor [f32_one]]> example_item) example_keys
                   example_videos_dir (f64 6 100)))).
  vm_compute. reflexivity.
Defined.

(** X6: a key listed twice makes the call fail: at its second visit the entry
    is a tensor, not a frame reference.  A call that returns was given a list
    of keys without repetition. *)
Theorem load_from_videos_returns_NoDup (B : Backend) (item : gmap string ItemValue)
    (video_frame_keys : list string) (videos_dir : Path) (tolerance_s : float64)
    (tr : list Event) (item' : gmap string ItemValue) :
  load_from_videos B item video_frame_keys videos_dir tolerance_s = (tr, inr item') ->
  List.NoDup video_frame_keys.
Proof.
  unfold load_from_videos. generalize (parent videos_dir). intros data_dir.
  revert item tr item'.
  induction video_frame_keys as [|k keys IH]; intros item tr item' Hrun.
  - constructor.
  - cbn [for_each] in Hrun. apply bind_inr_inv in Hrun.
    destruct Hrun as (tr1 & item1 & tr2 & Hkey & Hrest & _).
    constructor; [|eapply IH; exact Hrest].
    intros Hk. destruct (load_key_inv _ _ _ _ _ _ _ Hkey) as (v & -> & Hv).
    destruct (for_each_load_key_inv _ _ _ _ _ _ _ Hrest) as [Hin _].
    specialize (Hin k Hk). rewrite lookup_insert_eq in Hin.
    apply resolved_entry_not_tensor in Hin.
    apply resolved_entry_tensor in Hv. destruct v; contradiction.
Qed.

Lemma load_from_videos_returns_NoDup_witness :
  let run := load_from_videos example_backend example_item example_keys
               example_videos_dir (f64 6 100) in
  let item' := match snd run with inr it => it | inl _ => ∅ end in
  run = (fst run, inr item') /\ List.NoDup example_keys.
Proof.
  cbv zeta. split; [vm_compute; reflexivity |].
  apply (load_from_videos_returns_NoDup example_backend example_item example_keys
           example_videos_dir (f64 6 100)
           (fst (load_from_videos example_backend example_item example_keys
                   example_videos_dir (f64 6 100)))
           (match snd (load_from_videos example_backend example_item example_keys
                         example_videos_dir (f64 6 100)) with
            | inr it => it | inl _ => ∅ end)).
  vm_compute. reflexivity.
Defined.

(** X7: a key that the item does not hold raises [KeyError] with that key,
    once the keys before it have been processed: their videos were decoded,
    the keys after it are not looked at. *)
Theorem load_from_videos_missing_key (B : Backend) (item : gmap string ItemValue)
    (done later : list string) (key : string) (videos_dir : Path) (tolerance_s : float64)
    (tr : list Event) (item1 : gmap string ItemValue) :
  load_from_videos B item done videos_dir tolerance_s = (tr, inr item1) ->
  item !! key = None ->
  load_from_videos B item (done ++ key :: later) videos_dir tolerance_s
  = (tr, inl (KeyError key)).
Proof.
  intros Hdone Hkey.
  unfold load_from_videos in *.
  destruct (for_each_load_key_inv _ _ _ _ _ _ _ Hdone) as [Hin Hout].
  assert (Hnot : ~ In key done).
  { intros Hk. destruct (Hin key Hk) as [(? & ? & ? & H & _) | (? & ? & ? & ? & H & _)];
      congruence. }
  assert (Hload : load_key B (parent videos_dir) tolerance_s item1 key
                  = ([], inl (KeyError key))).
  { unfold load_key, dict_getitem. rewrite (Hout key Hnot), Hkey. reflexivity. }
  rewrite for_each_app, Hdone, bind_ok. cbn [for_each].
  rewrite Hload. autorewrite with run. rewrite app_nil_r. reflexivity.
Qed.

Lemma load_from_videos_missing_key_witness :
  let run := load_from_videos example_backend example_item ["observation.image"]
               example_videos_dir (f64 6 100) in
  let item1 := match snd run with inr it => it | inl _ => ∅ end in
  run = (fst run, inr item1) /\
  example_item !! "observation.depth" = None /\
  load_from_videos example_backend example_item
    (["observation.image"] ++ "observation.depth" :: ["observation.images"])
    example_videos_dir (f64 6 100)
  = (fst run, inl (KeyError "observation.depth")).
Proof.
  cbv zeta. split; [vm_compute; reflexivity |]. split; [vm_compute; reflexivity |].
  apply (load_from_videos_missing_key example_backend example_item ["observation.image"]
           ["observation.images"] "observation.depth" example_videos_dir (f64 6 100)
           (fst (load_from_videos example_backend example_item ["observation.image"]
                   example_videos_dir (f64 6 100)))
           (match snd (load_from_videos example_backend example_item
                         ["observation.image"] example_videos_dir (f64 6 100)) with
            | inr it => it | inl _ => ∅ end)).
  - vm_compute. reflexivity.
  - vm_compute. reflexivity.
Defined.

(** X8: an empty list of references is not caught by the guard on the
    paths (the set of paths has size 0, not 1): the call raises [IndexError]
    at [paths[0]], before any video is opened. *)
Theorem load_from_videos_empty_list (B : Backend) (item : gmap string ItemValue)
    (key : string) (later : list string) (videos_dir : Path) (tolerance_s : float64) :
  item !! key = Some (VFrameRefList []) ->
  load_from_videos B item (key :: later) videos_dir tolerance_s = ([], inl IndexError).
Proof.
  intros Hkey. unfold load_from_videos. cbn [for_each].
  unfold load_key, dict_getitem. rewrite Hkey. autorewrite with run.
  cbn [List.map list_to_set]. rewrite size_empty.
  destruct (decide (0%nat = 1%nat)) as [Hne|_]; [discriminate|].
  autorewrite with run. rewrite getitem_nil. autorewrite with run. reflexivity.
Qed.

Lemma load_from_videos_empty_list_witness :
  ({[ "observation.images" := VFrameRefList [] ]} : gmap string ItemValue)
    !! "observation.images" = Some (VFrameRefList []) /\
  load_from_videos example_backend {[ "observation.images" := VFrameRefList [] ]}
    ["observation.images"] example_videos_dir (f64 6 100) = ([], inl IndexError).
Proof.
  split; [vm_compute; reflexivity |].
  apply (load_from_videos_empty_list example_backend
           {[ "observation.images" := VFrameRefList [] ]} "observation.images" []
           example_videos_dir (f64 6 100)).
  vm_compute. reflexivity.
Defined.

(** ** Which videos are opened *)

Lemma opened_paths_app (tr1 tr2 : list Event) :
  opened_paths (tr1 ++ tr2) = opened_paths tr1 ++ opened_paths tr2.
Proof. apply flat_map_app. Qed.

Lemma opened_paths_scan_trace (log_loaded_timestamps : bool) (pulled : list Frame) :
  opened_paths (scan_trace log_loaded_timestamps pulled) = [].
Proof.
  unfold scan_trace. induction pulled as [|f pulled IH]; [reflexivity|].
  cbn [flat_map]. rewrite opened_paths_app, IH.
  destruct log_loaded_timestamps; reflexivity.
Qed.

(** A call of [decode_video_frames_torchvision] opens its video at most
    once, and no other file. *)
Lemma decode_opened_paths (B : Backend) (video_path : Path) (timestamps : list float64)
    (tolerance_s : float64) (device : string) (log_loaded_timestamps : bool) :
  let tr := fst (decode_video_frames_torchvision B video_path timestamps tolerance_s
                   device log_loaded_timestamps) in
  opened_paths tr = [] \/ opened_paths tr = [str video_path].
Proof.
  cbv zeta.
  destruct (decode_early_or_main B video_path timestamps device)
    as [(tr & e & Hexit) | (first_ts & rest & r0 & r & -> & -> & Hopen & Hseek & Hframes)].
  - rewrite (decode_early_exit _ _ _ _ _ _ Hexit). cbn [fst].
    destruct Hexit; cbn; auto.
  - destruct (decode_cpu_main B video_path first_ts rest r0 r Hopen Hseek Hframes)
      as (min_ & argmin_ & _ & _ & _ & Hout).
    rewrite Hout. cbv zeta. right.
    destruct (forallb (fun m => SFltb m (f32_of_f64 tolerance_s)) min_); cbn [fst];
      rewrite !opened_paths_app, opened_paths_scan_trace;
      destruct log_loaded_timestamps; reflexivity.
Qed.

Lemma load_key_opened (B : Backend) (data_dir : Path) (tolerance_s : float64)
    (item : gmap string ItemValue) (key s : string) :
  In s (opened_paths (fst (load_key B data_dir tolerance_s item key))) ->
  exists v ref, item !! key = Some v /\ video_ref v = Some ref /\
                s = str (truediv data_dir (path ref)).
Proof.
  unfold load_key, dict_getitem.
  destruct (item !! key) as [[ref | refs | t | ts]|] eqn:Hkey;
    autorewrite with run; try (intros []).
  - pose proof (decode_opened_paths B (truediv data_dir (path ref)) [timestamp ref]
                  tolerance_s "cpu" false) as Hopened. cbv zeta in Hopened.
    destruct (decode_video_frames_torchvision B (truediv data_dir (path ref))
                [timestamp ref] tolerance_s "cpu" false) as [tr [e|frames]].
    + rewrite bind_err. cbn [fst] in *. intros Hs.
      destruct Hopened as [H|H]; rewrite H in Hs; [destruct Hs|].
      destruct Hs as [<- | []]. exists (VFrameRef ref), ref. auto.
    + rewrite bind_ok. destruct (getitem frames 0) as [e|frame0];
        autorewrite with run; unfold mret, M_ret; autorewrite with run;
        cbn [fst] in *; rewrite app_nil_r; intros Hs;
        (destruct Hopened as [H|H]; rewrite H in Hs; [destruct Hs|]);
        destruct Hs as [<- | []]; exists (VFrameRef ref), ref; auto.
  - destruct (decide (size (list_to_set (List.map path refs) : gset string) = 1%nat));
      autorewrite with run; [intros []|].
    destruct refs as [|ref0 refs]; cbn [List.map].
    { rewrite getitem_nil. autorewrite with run. intros []. }
    rewrite getitem_first. autorewrite with run.
    pose proof (decode_opened_paths B (truediv data_dir (path ref0))
                  (timestamp ref0 :: List.map timestamp refs)
                  tolerance_s "cpu" false) as Hopened. cbv zeta in Hopened.
    destruct (decode_video_frames_torchvision B (truediv data_dir (path ref0))
                (timestamp ref0 :: List.map timestamp refs) tolerance_s "cpu" false)
      as [tr [e|frames]].
    + rewrite bind_err. cbn [fst] in *. intros Hs.
      destruct Hopened as [H|H]; rewrite H in Hs; [destruct Hs|].
      destruct Hs as [<- | []]. exists (VFrameRefList (ref0 :: refs)), ref0. auto.
    + rewrite bind_ok. unfold mret, M_ret. autorewrite with run.
      cbn [fst] in *. rewrite app_nil_r. intros Hs.
      destruct Hopened as [H|H]; rewrite H in Hs; [destruct Hs|].
      destruct Hs as [<- | []]. exists (VFrameRefList (ref0 :: refs)), ref0. auto.
Qed.

Lemma for_each_load_key_opened (B : Backend) (data_dir : Path) (tolerance_s : float64)
    (item : gmap string ItemValue) (keys : list string) :
  forall (item_i : gmap string ItemValue) (s : string),
    (forall key v ref, item_i !! key = Some v -> video_ref v = Some ref ->
                       item !! key = Some v) ->
    In s (opened_paths (fst (for_each (load_key B data_dir tolerance_s) keys item_i))) ->
    exists key v ref, In key keys /\ item !! key = Some v /\ video_ref v = Some ref /\
                      s = str (truediv data_dir (path ref)).
Proof.
  induction keys as [|k keys IH]; intros item_i s Hinv Hs; [destruct Hs|].
  cbn [for_each] in Hs.
  destruct (load_key B data_dir tolerance_s item_i k) as [tr1 [e|item1]] eqn:Hkey.
  - rewrite bind_err in Hs. cbn [fst] in Hs.
    destruct (load_key_opened B data_dir tolerance_s item_i k s) as (v & ref & Hv & Href & ->).
    { rewrite Hkey. exact Hs. }
    exists k, v, ref. split; [left; reflexivity|]. eauto.
  - rewrite bind_ok in Hs. unfold prepend in Hs. cbn [fst] in Hs.
    rewrite opened_paths_app in Hs. apply in_app_or in Hs. destruct Hs as [Hs|Hs].
    + destruct (load_key_opened B data_dir tolerance_s item_i k s)
        as (v & ref & Hv & Href & ->).
      { rewrite Hkey. exact Hs. }
      exists k, v, ref. split; [left; reflexivity|]. eauto.
    + destruct (load_key_inv _ _ _ _ _ _ _ Hkey) as (v & -> & Hv).
      destruct (IH (<[k := v]> item_i) s) as (key & v' & ref & Hin & Hitem & Href & ->).
      * intros key v' ref Hlook Href.
        destruct (decide (k = key)) as [<-|Hne].
        -- rewrite lookup_insert_eq in Hlook. injection Hlook as <-.
           apply resolved_entry_tensor in Hv. destruct v; try contradiction; discriminate.
        -- rewrite lookup_insert_ne in Hlook by exact Hne. eapply Hinv; eassumption.
      * exact Hs.
      * exists key, v', ref. split; [right; exact Hin|]. auto.
Qed.

(** X9: whether it returns or raises, [load_from_videos] opens no video
    but those the item refers to under the listed keys: every opened path is
    the stored path of a frame reference of the item (for a list, of its first
    reference), resolved against the parent of [videos_dir]. *)
Theorem load_from_videos_opens_only_referenced (B : Backend)
    (item : gmap string ItemValue) (video_frame_keys : list string) (videos_dir : Path)
    (tolerance_s : float64) (s : string) :
  In s (opened_paths
          (fst (load_from_videos B item video_frame_keys videos_dir tolerance_s))) ->
  exists key v ref,
    In key video_frame_keys /\ item !! key = Some v /\ video_ref v = Some ref /\
    s = str (truediv (parent videos_dir) (path ref)).
Proof.
  unfold load_from_videos. apply for_each_load_key_opened. auto.
Qed.

Lemma load_from_videos_opens_only_referenced_witness :
  In "data/videos/episode_0.mp4"
     (opened_paths
        (fst (load_from_videos example_backend example_item example_keys
                example_videos_dir (f64 6 100)))) /\
  exists key v ref,
    In key example_keys /\ example_item !! key = Some v /\ video_ref v = Some ref /\
    "data/videos/episode_0.mp4" = str (truediv (parent example_videos_dir) (path ref)).
Proof.
  split; [vm_compute; tauto |].
  apply (load_from_videos_opens_only_referenced example_backend example_item
           example_keys example_videos_dir (f64 6 100) "data/videos/episode_0.mp4").
  vm_compute. tauto.
Defined.

(** ** encode_video_frames: the arguments handed to ffmpeg *)

Lemma no_space_app (a b : string) :
  no_space (String.append a b) = no_space a && no_space b.
Proof.
  induction a as [|c a IH]; [reflexivity|].
  change (String.append (String c a) b) with (String c (String.append a b)).
  cbn [no_space]. rewrite IH, andb_assoc. reflexivity.
Qed.

Lemma count_spaces_app (a b : string) :
  count_spaces (String.append a b) = (count_spaces a + count_spaces b)%nat.
Proof.
  induction a as [|c a IH]; [reflexivity|].
  change (String.append (String c a) b) with (String c (String.append a b)).
  cbn [count_spaces]. rewrite IH. lia.
Qed.

Lemma no_space_count (s : string) : no_space s = true -> count_spaces s = 0%nat.
Proof.
  induction s as [|c s IH]; [reflexivity|].
  cbn [no_space count_spaces]. intros H. apply andb_true_iff in H. destruct H as [Hc Hs].
  apply negb_true_iff in Hc. rewrite Hc, (IH Hs). reflexivity.
Qed.

Lemma str_split_field (a rest : string) :
  no_space a = true ->
  str_split " " (String.append a (String " " rest)) = a :: str_split " " rest.
Proof.
  induction a as [|c a IH]; intros Ha.
  - reflexivity.
  - cbn [no_space] in Ha. apply andb_true_iff in Ha. destruct Ha as [Hc Ha].
    apply negb_true_iff in Hc.
    change (String.append (String c a) (String " " rest))
      with (String c (String.append a (String " " rest))).
    cbn [str_split]. rewrite Hc, (IH Ha). reflexivity.
Qed.

Lemma str_split_no_space (a : string) : no_space a = true -> str_split " " a = [a].
Proof.
  induction a as [|c a IH]; intros Ha; [reflexivity|].
  cbn [no_space] in Ha. apply andb_true_iff in Ha. destruct Ha as [Hc Ha].
  apply negb_true_iff in Hc. cbn [str_split]. rewrite Hc, (IH Ha). reflexivity.
Qed.

(** Splitting at the spaces undoes joining with spaces, for fields without
    spaces. *)
Lemma str_split_concat (fields : list string) :
  fields <> [] -> forallb no_space fields = true ->
  str_split " " (String.concat " " fields) = fields.
Proof.
  induction fields as [|a fields IH]; [congruence|]. intros _ Hall.
  cbn [forallb] in Hall. apply andb_true_iff in Hall. destruct Hall as [Ha Hall].
  destruct fields as [|b fields].
  - cbn [String.concat]. apply str_split_no_space, Ha.
  - change (String.concat " " (a :: b :: fields))
      with (String.append a (String " " (String.concat " " (b :: fields)))).
    rewrite (str_split_field _ _ Ha), IH; [reflexivity | discriminate | exact Hall].
Qed.

Lemma str_split_length (s : string) :
  length (str_split " " s) = S (count_spaces s).
Proof.
  induction s as [|c s IH]; [reflexivity|].
  cbn [str_split count_spaces]. destruct (Ascii.eqb c " ").
  - cbn [length]. rewrite IH. reflexivity.
  - destruct (str_split " " s) as [|h t]; cbn [length] in *; lia.
Qed.

Lemma pretty_N_go_no_space (x : N) :
  forall s, no_space s = true -> no_space (pretty_N_go x s) = true.
Proof.
  induction (N.lt_wf_0 x) as [x _ IH]. intros s Hs.
  destruct (N.eq_dec x 0%N) as [->|Hx].
  - rewrite pretty_N_go_0. exact Hs.
  - rewrite pretty_N_go_step by lia. apply IH.
    + apply N.div_lt; lia.
    + cbn [no_space]. rewrite Hs, andb_true_r.
      unfold pretty_N_char. repeat case_match; reflexivity.
Qed.

Lemma pretty_Z_no_space (z : Z) : no_space (pretty z) = true.
Proof.
  assert (Hpos : forall p : positive, no_space (pretty p) = true).
  { intros p. unfold pretty, pretty_positive, pretty, pretty_N.
    destruct (decide (N.pos p = 0%N)); [reflexivity|].
    apply pretty_N_go_no_space. reflexivity. }
  destruct z as [|p|p]; unfold pretty, pretty_Z.
  - reflexivity.
  - apply Hpos.
  - change ("-" +:+ pretty p) with (String "-" (pretty p)).
    cbn [no_space]. rewrite Hpos. reflexivity.
Qed.

(** The command line is its fourteen fields joined by single spaces. *)
Lemma ffmpeg_cmd_fields (imgs_dir video_path : Path) (fps : Z) :
  ffmpeg_cmd imgs_dir video_path fps
  = String.concat " "
      [ "ffmpeg"; "-r"; pretty fps; "-f"; "image2"; "-loglevel"; "error";
        "-i"; str (truediv imgs_dir "frame_%06d.png");
        "-vcodec"; "libx264"; "-pix_fmt"; "yuv444p"; str video_path ].
Proof. reflexivity. Qed.

(** X10: when neither the input pattern nor the output path contains a
    space and the parent directory of the output can be created, ffmpeg is
    run once, after the directory was created, with exactly these fourteen
    arguments: the frame rate in decimal, the image pattern
    [imgs_dir/frame_%06d.png], the codec and pixel format, and the output
    path.  The call returns when ffmpeg returns 0 and raises
    [CalledProcessError] with the return code otherwise. *)
Theorem encode_video_frames_runs_ffmpeg (sys : System) (imgs_dir video_path : Path)
    (fps : Z) :
  no_space (str (truediv imgs_dir "frame_%06d.png")) = true ->
  no_space (str video_path) = true ->
  sys_mkdir sys (parent video_path) = true ->
  let args := [ "ffmpeg"; "-r"; pretty fps; "-f"; "image2"; "-loglevel"; "error";
                "-i"; str (truediv imgs_dir "frame_%06d.png");
                "-vcodec"; "libx264"; "-pix_fmt"; "yuv444p"; str video_path ] in
  encode_video_frames sys imgs_dir video_path fps
  = ([Mkdir (parent video_path); SubprocessRun args],
     match sys_run sys args with
     | None => inl (OSError (SubprocessRun args))
     | Some rc => if rc =? 0 then inr tt else inl (CalledProcessError rc args)
     end).
Proof.
  intros Hin Hout Hmkdir. cbv zeta. unfold encode_video_frames. rewrite Hmkdir.
  rewrite ffmpeg_cmd_fields, str_split_concat.
  - destruct (sys_run sys _) as [rc|]; [destruct (rc =? 0)|]; reflexivity.
  - discriminate.
  - cbn [forallb]. rewrite Hin, Hout, pretty_Z_no_space. reflexivity.
Qed.

Lemma encode_video_frames_runs_ffmpeg_witness :
  let sys := {| sys_mkdir := fun _ => true; sys_run := fun _ => Some 0 |} in
  let imgs_dir := Path_of_str "data/images/episode_0" in
  let video_path := Path_of_str "data/videos/episode_0.mp4" in
  no_space (str (truediv imgs_dir "frame_%06d.png")) = true /\
  no_space (str video_path) = true /\
  sys_mkdir sys (parent video_path) = true /\
  encode_video_frames sys imgs_dir video_path 30
  = ([Mkdir (Path_of_str "data/videos");
      SubprocessRun
        [ "ffmpeg"; "-r"; "30"; "-f"; "image2"; "-loglevel"; "error";
          "-i"; "data/images/episode_0/frame_%06d.png";
          "-vcodec"; "libx264"; "-pix_fmt"; "yuv444p"; "data/videos/episode_0.mp4" ]],
     inr tt).
Proof.
  cbv zeta. split; [reflexivity |]. split; [reflexivity |]. split; [reflexivity |].
  apply (encode_video_frames_runs_ffmpeg
           {| sys_mkdir := fun _ => true; sys_run := fun _ => Some 0 |}
           (Path_of_str "data/images/episode_0")
           (Path_of_str "data/videos/episode_0.mp4") 30); reflexivity.
Defined.

(** X11: the command line is split at every space, so each space inside
    the image directory or inside the output path adds one argument: ffmpeg
    receives fourteen arguments exactly when the two paths are free of
    spaces, and more otherwise. *)
Theorem encode_video_frames_argument_count (sys : System) (imgs_dir video_path : Path)
    (fps : Z) :
  sys_mkdir sys (parent video_path) = true ->
  exists args,
    fst (encode_video_frames sys imgs_dir video_path fps)
    = [Mkdir (parent video_path); SubprocessRun args] /\
    length args
    = (14 + count_spaces (str (truediv imgs_dir "frame_%06d.png"))
          + count_spaces (str video_path))%nat.
Proof.
  intros Hmkdir. exists (str_split " " (ffmpeg_cmd imgs_dir video_path fps)). split.
  - unfold encode_video_frames. rewrite Hmkdir.
    destruct (sys_run sys _) as [rc|]; [destruct (rc =? 0)|]; reflexivity.
  - rewrite str_split_length, ffmpeg_cmd_fields.
    cbn [String.concat]. rewrite !count_spaces_app.
    rewrite (no_space_count _ (pretty_Z_no_space fps)).
    cbn [count_spaces Ascii.eqb Bool.eqb]. lia.
Qed.

Lemma encode_video_frames_argument_count_witness :
  let sys := {| sys_mkdir := fun _ => true; sys_run := fun _ => Some 1 |} in
  let imgs_dir := Path_of_str "my data/images" in
  let video_path := Path_of_str "my data/videos/episode 0.mp4" in
  sys_mkdir sys (parent video_path) = true /\
  exists args,
    fst (encode_video_frames sys imgs_dir video_path 30)
    = [Mkdir (parent video_path); SubprocessRun args] /\
    length args
    = (14 + count_spaces (str (truediv imgs_dir "frame_%06d.png"))
          + count_spaces (str video_path))%nat.
Proof.
  cbv zeta. split; [reflexivity |].
  apply (encode_video_frames_argument_count
           {| sys_mkdir := fun _ => true; sys_run := fun _ => Some 1 |}
           (Path_of_str "my data/images")
           (Path_of_str "my data/videos/episode 0.mp4") 30).
  reflexivity.
Defined.

(** ** Normalisation keeps the pixel values apart *)

Lemma normalize_value_pairs :
  forallb (fun i =>
             forallb (fun j => SFltb (normalize_value (Z.of_nat i))
                                     (normalize_value (Z.of_nat j)))
                     (seq (S i) (255 - i)))
          (seq 0 256) = true.
Proof. vm_compute. reflexivity. Qed.

(** X12: on 8-bit values the normalisation is strictly increasing in
    float32: a smaller pixel value gives a strictly smaller float.  Hence no
    two of the 256 pixel values are normalised to the same float. *)
Theorem normalize_value_strictly_increasing (v w : Z) :
  0 <= v <= 255 -> 0 <= w <= 255 ->
  (v < w -> SFltb (normalize_value v) (normalize_value w) = true) /\
  (normalize_value v = normalize_value w -> v = w).
Proof.
  intros Hv Hw.
  assert (Hlt : forall a b, 0 <= a -> a < b -> b <= 255 ->
                            SFltb (normalize_value a) (normalize_value b) = true).
  { intros a b Ha Hab Hb.
    pose proof (proj1 (forallb_forall _ _) normalize_value_pairs (Z.to_nat a)) as H1.
    cbv beta in H1.
    assert (Hia : In (Z.to_nat a) (seq 0 256)) by (apply in_seq; lia).
    pose proof (proj1 (forallb_forall _ _) (H1 Hia) (Z.to_nat b)) as H2. cbv beta in H2.
    rewrite !Z2Nat.id in H2 by lia. apply H2. apply in_seq. lia. }
  split; [intros Hvw; apply Hlt; lia|].
  intros Heq. destruct (Z.lt_trichotomy v w) as [Hvw | [Hvw | Hvw]]; [|exact Hvw|].
  - pose proof (Hlt v w ltac:(lia) Hvw ltac:(lia)) as H.
    rewrite Heq, SFltb_irrefl in H. discriminate.
  - pose proof (Hlt w v ltac:(lia) Hvw ltac:(lia)) as H.
    rewrite Heq, SFltb_irrefl in H. discriminate.
Qed.

Lemma normalize_value_strictly_increasing_witness :
  0 <= 127 <= 255 /\ 0 <= 128 <= 255 /\
  (127 < 128 -> SFltb (normalize_value 127) (normalize_value 128) = true) /\
  (normalize_value 127 = normalize_value 128 -> 127 = 128).
Proof.
  split; [lia |]. split; [lia |].
  apply (normalize_value_strictly_increasing 127 128); lia.
Defined.

(** ** MLP: the layers fit together *)

Lemma forward_features_app (l1 l2 : list Layer) (dim mid : Z) :
  forward_features l1 dim = Some mid ->
  forward_features (l1 ++ l2) dim = forward_features l2 mid.
Proof.
  revert dim. induction l1 as [|[i o|] l1 IH]; intros dim; cbn [forward_features app].
  - intros [= ->]. reflexivity.
  - destruct (dim =? i); [apply IH | discriminate].
  - apply IH.
Qed.

Lemma new_Linear_ok (allocates : Z -> Z -> bool) (in_dim out_dim : Z) :
  0 <= in_dim -> 0 <= out_dim -> allocates in_dim out_dim = true ->
  new_Linear allocates in_dim out_dim = inr (Linear in_dim out_dim).
Proof.
  intros Hin Hout Halloc. unfold new_Linear.
  rewrite (proj2 (Z.ltb_ge in_dim 0) Hin), (proj2 (Z.ltb_ge out_dim 0) Hout), Halloc.
  reflexivity.
Qed.

Lemma MLP_loop_spec (allocates : Z -> Z -> bool) (hidden : list Z) :
  forall (layers : list Layer) (in_dim d0 : Z),
    0 <= in_dim -> Forall (fun d => 0 <= d) hidden ->
    (forall i o, In i (in_dim :: hidden) -> In o hidden -> allocates i o = true) ->
    forward_features layers d0 = Some in_dim ->
    exists layers',
      MLP_loop allocates hidden layers in_dim = inr (layers', List.last hidden in_dim) /\
      length layers' = (length layers + 2 * length hidden)%nat /\
      forward_features layers' d0 = Some (List.last hidden in_dim).
Proof.
  induction hidden as [|h hidden IH]; intros layers in_dim d0 Hin Hall Halloc Hfwd.
  - exists layers. cbn [MLP_loop List.last length]. repeat split; [lia | exact Hfwd].
  - apply Forall_cons_iff in Hall. destruct Hall as [Hh Hall].
    cbn [MLP_loop].
    rewrite (new_Linear_ok allocates in_dim h Hin Hh)
      by (apply Halloc; [left; reflexivity | left; reflexivity]).
    destruct (IH (layers ++ [Linear in_dim h] ++ [ReLU]) h d0 Hh Hall)
      as (layers' & Hrun & Hlen & Hout).
    { intros i o Hi Ho. apply Halloc; right; [exact Hi | exact Ho]. }
    { rewrite (forward_features_app _ _ _ _ Hfwd). cbn [app forward_features].
      rewrite Z.eqb_refl. reflexivity. }
    exists layers'. rewrite Hrun, last_cons. split; [reflexivity|]. split; [|exact Hout].
    rewrite Hlen, !length_app. cbn [length]. lia.
Qed.

(** X13: for a non-empty list of non-negative widths and a non-negative
    input width, when torch can allocate a linear layer between any two of
    these widths, [MLP.__init__] builds [2 * n - 1] layers, [n] being the
    number of widths; they fit together: fed with [in_channels] features, the
    sequence produces [hidden_channels[-1]] features without any shape
    mismatch, and the last layer is a linear layer, not a ReLU. *)
Theorem MLP_init_shapes (allocates : Z -> Z -> bool) (in_channels : Z)
    (hidden_channels : list Z) :
  hidden_channels <> [] ->
  0 <= in_channels ->
  Forall (fun d => 0 <= d) hidden_channels ->
  (forall i o, In i (in_channels :: hidden_channels) -> In o hidden_channels ->
               allocates i o = true) ->
  exists layers in_dim,
    MLP_init allocates in_channels hidden_channels
    = inr (layers ++ [Linear in_dim (List.last hidden_channels 0)]) /\
    length (layers ++ [Linear in_dim (List.last hidden_channels 0)])
    = (2 * length hidden_channels - 1)%nat /\
    forward_features (layers ++ [Linear in_dim (List.last hidden_channels 0)]) in_channels
    = Some (List.last hidden_channels 0).
Proof.
  intros Hne Hin Hall Halloc.
  destruct (exists_last Hne) as (front & out_dim & ->).
  rewrite last_last.
  apply Forall_app in Hall. destruct Hall as [Hfront Hout].
  apply Forall_cons_iff in Hout. destruct Hout as [Hout _].
  destruct (MLP_loop_spec allocates front [] in_channels in_channels Hin Hfront)
    as (layers & Hrun & Hlen & Hfwd).
  { intros i o Hi Ho. apply Halloc.
    - destruct Hi as [<- | Hi]; [left; reflexivity | right; apply in_or_app; left; exact Hi].
    - apply in_or_app. left. exact Ho. }
  { reflexivity. }
  exists layers, (List.last front in_channels).
  unfold MLP_init. rewrite removelast_last, Hrun.
  assert (Hlast : getitem (front ++ [out_dim]) (-1) = inr out_dim).
  { destruct front as [|x front]; [reflexivity|].
    change ((x :: front) ++ [out_dim]) with (x :: (front ++ [out_dim])).
    rewrite getitem_last, last_last. reflexivity. }
  rewrite Hlast.
  assert (Hmem : In (List.last front in_channels) (in_channels :: front)) by apply last_In.
  assert (Hd : 0 <= List.last front in_channels).
  { destruct Hmem as [<- | Hmem]; [exact Hin|].
    apply (proj1 (List.Forall_forall _ _) Hfront _ Hmem). }
  rewrite (new_Linear_ok allocates _ out_dim Hd Hout).
  2:{ apply Halloc.
      - destruct Hmem as [Hmem | Hmem]; [left; exact Hmem | right; apply in_or_app; left; exact Hmem].
      - apply in_or_app. right. left. reflexivity. }
  split; [reflexivity|]. split.
  - rewrite !length_app, Hlen. cbn [length]. lia.
  - rewrite (forward_features_app _ _ _ _ Hfwd). cbn [forward_features].
    rewrite Z.eqb_refl. reflexivity.
Qed.

Lemma MLP_init_shapes_witness :
  let allocates := fun i o : Z => i * o <? 2 ^ 40 in
  [512; 512; 10] <> [] /\ 0 <= 64 /\ Forall (fun d => 0 <= d) [512; 512; 10] /\
  (forall i o, In i [64; 512; 512; 10] -> In o [512; 512; 10] -> allocates i o = true) /\
  exists layers in_dim,
    MLP_init allocates 64 [512; 512; 10]
    = inr (layers ++ [Linear in_dim (List.last [512; 512; 10] 0)]) /\
    length (layers ++ [Linear in_dim (List.last [512; 512; 10] 0)])
    = (2 * length [512; 512; 10] - 1)%nat /\
    forward_features (layers ++ [Linear in_dim (List.last [512; 512; 10] 0)]) 64
    = Some (List.last [512; 512; 10] 0).
Proof.
  cbv zeta.
  assert (Halloc : forall i o, In i [64; 512; 512; 10] -> In o [512; 512; 10] ->
                               (i * o <? 2 ^ 40) = true).
  { intros i o Hi Ho. cbn [In] in Hi, Ho. apply Z.ltb_lt.
    destruct Hi as [<- | [<- | [<- | [<- | []]]]];
      destruct Ho as [<- | [<- | [<- | []]]]; reflexivity. }
  split; [discriminate |]. split; [lia |]. split; [repeat constructor; lia |].
  split; [exact Halloc |].
  apply (MLP_init_shapes (fun i o : Z => i * o <? 2 ^ 40) 64 [512; 512; 10]);
    [discriminate | lia | repeat constructor; lia | exact Halloc].
Defined.


(** ** VQBeTScheduler: when the learning-rate scheduler starts *)

Lemma steps_spec (k : nat) :
  forall self : VQBeTScheduler,
    n_vqvae_training_steps (steps k self) = n_vqvae_training_steps self /\
    optimizing_step (steps k self) = optimizing_step self + Z.of_nat k /\
    lr_scheduler_steps (steps k self)
    = (lr_scheduler_steps self
       + Z.to_nat (Z.of_nat k
                   - Z.max 0 (n_vqvae_training_steps self - optimizing_step self - 1)))%nat.
Proof.
  induction k as [|k IH]; intros self.
  - cbn [steps]. repeat split; lia.
  - cbn [steps]. destruct (IH (VQBeTScheduler_step self)) as (Hn & Hos & Hlr).
    rewrite Hn, Hos, Hlr. unfold VQBeTScheduler_step.
    cbn [n_vqvae_training_steps optimizing_step lr_scheduler_steps].
    destruct (Z.leb_spec (n_vqvae_training_steps self) (optimizing_step self + 1));
      repeat split; lia.
Qed.

(** X14: after [k] calls of [step] on a fresh scheduler, [optimizing_step]
    is [k] and the wrapped learning-rate scheduler has been stepped
    [k - (n - 1)] times, [n] being [n_vqvae_training_steps] (not at all while
    [k < n]; at every call when [n <= 1]): it starts at the [n]-th call and is
    stepped at every call from then on. *)
Theorem VQBeTScheduler_steps (n : Z) (k : nat) :
  optimizing_step (steps k (VQBeTScheduler_init n)) = Z.of_nat k /\
  lr_scheduler_steps (steps k (VQBeTScheduler_init n))
  = Z.to_nat (Z.of_nat k - Z.max 0 (n - 1)).
Proof.
  destruct (steps_spec k (VQBeTScheduler_init n)) as (_ & Hos & Hlr).
  rewrite Hos, Hlr. cbn [VQBeTScheduler_init n_vqvae_training_steps optimizing_step
                         lr_scheduler_steps].
  split; [lia|]. rewrite Z.sub_0_r. reflexivity.
Qed.

(** ** One video per key *)

Lemma decode_success_opened (B : Backend) (video_path : Path) (timestamps : list float64)
    (tolerance_s : float64) (device : string) (log_loaded_timestamps : bool)
    (tr : list Event) (result : list Tensor) :
  decode_video_frames_torchvision B video_path timestamps tolerance_s device
    log_loaded_timestamps = (tr, inr result) ->
  opened_paths tr = [str video_path].
Proof.
  intros Hrun.
  destruct (decode_early_or_main B video_path timestamps device)
    as [(tr' & e' & Hexit) | (first_ts & rest & r0 & r & -> & -> & Hopen & Hseek & Hframes)].
  - rewrite (decode_early_exit _ _ _ _ _ _ Hexit) in Hrun. discriminate.
  - destruct (decode_cpu_main B video_path first_ts rest r0 r Hopen Hseek Hframes)
      as (min_ & argmin_ & _ & _ & _ & Hout).
    rewrite Hout in Hrun. cbv zeta in Hrun.
    destruct (forallb (fun m => SFltb m (f32_of_f64 tolerance_s)) min_); [|discriminate].
    pose proof (f_equal fst Hrun) as Htr. cbn [fst] in Htr. subst tr.
    rewrite !opened_paths_app, opened_paths_scan_trace.
    destruct log_loaded_timestamps; reflexivity.
Qed.

Lemma load_key_success_opened (B : Backend) (data_dir : Path) (tolerance_s : float64)
    (item : gmap string ItemValue) (key : string) (tr : list Event)
    (item1 : gmap string ItemValue) :
  load_key B data_dir tolerance_s item key = (tr, inr item1) ->
  exists v ref, item !! key = Some v /\ video_ref v = Some ref /\
                opened_paths tr = [str (truediv data_dir (path ref))].
Proof.
  unfold load_key, dict_getitem. intros Hrun.
  destruct (item !! key) as [[ref | refs | t | ts]|] eqn:Hkey;
    autorewrite with run in Hrun; try discriminate.
  - apply bind_inr_inv in Hrun. destruct Hrun as (tr1 & frames & tr2 & Hdec & Hrest & ->).
    destruct (getitem frames 0) as [e|frame0]; autorewrite with run in Hrest;
      [discriminate|].
    injection Hrest as <- _. rewrite app_nil_r.
    exists (VFrameRef ref), ref. repeat split.
    eapply decode_success_opened, Hdec.
  - apply bind_inr_inv in Hrun. destruct Hrun as (tr0 & [] & tr1 & Hguard & Hrun & ->).
    assert (tr0 = []) as ->.
    { destruct (decide _) in Hguard; [discriminate|].
      unfold mret, M_ret in Hguard. congruence. }
    destruct refs as [|ref0 refs].
    { cbn [List.map] in Hrun. rewrite getitem_nil in Hrun.
      autorewrite with run in Hrun. discriminate. }
    cbn [List.map] in Hrun. rewrite getitem_first in Hrun. autorewrite with run in Hrun.
    apply bind_inr_inv in Hrun. destruct Hrun as (tr2 & frames & tr3 & Hdec & Hrest & ->).
    injection Hrest as <- _. rewrite app_nil_r. cbn [app].
    exists (VFrameRefList (ref0 :: refs)), ref0. repeat split.
    eapply decode_success_opened, Hdec.
Qed.

Lemma for_each_load_key_success_opened (B : Backend) (data_dir : Path) (tolerance_s : float64)
    (item : gmap string ItemValue) (keys : list string) :
  forall (item_i : gmap string ItemValue) (tr : list Event) (item' : gmap string ItemValue),
    (forall key v ref, item_i !! key = Some v -> video_ref v = Some ref ->
                       item !! key = Some v) ->
    for_each (load_key B data_dir tolerance_s) keys item_i = (tr, inr item') ->
    Forall2 (fun key s => exists v ref, item !! key = Some v /\ video_ref v = Some ref /\
                                        s = str (truediv data_dir (path ref)))
            keys (opened_paths tr).
Proof.
  induction keys as [|k keys IH]; intros item_i tr item' Hinv Hrun.
  - injection Hrun as <- _. constructor.
  - cbn [for_each] in Hrun. apply bind_inr_inv in Hrun.
    destruct Hrun as (tr1 & item1 & tr2 & Hkey & Hrest & ->).
    destruct (load_key_success_opened _ _ _ _ _ _ _ Hkey) as (v & ref & Hv & Href & Hopened).
    rewrite opened_paths_app, Hopened. cbn [app]. constructor.
    + exists v, ref. repeat split; [eapply Hinv; eassumption | exact Href].
    + destruct (load_key_inv _ _ _ _ _ _ _ Hkey) as (v1 & -> & Hv1).
      eapply IH; [|exact Hrest].
      intros key v' ref' Hlook Href'.
      destruct (decide (k = key)) as [<-|Hne].
      * rewrite lookup_insert_eq in Hlook. injection Hlook as <-.
        apply resolved_entry_tensor in Hv1. destruct v1; try contradiction; discriminate.
      * rewrite lookup_insert_ne in Hlook by exact Hne. eapply Hinv; eassumption.
Qed.

(** X15: a call that returns has opened exactly one video per key, in the
    order of [video_frame_keys]: for each key the path stored in its frame
    reference (the first reference of a list), resolved against the parent of
    [videos_dir]. *)
Theorem load_from_videos_one_video_per_key (B : Backend) (item : gmap string ItemValue)
    (video_frame_keys : list string) (videos_dir : Path) (tolerance_s : float64)
    (tr : list Event) (item' : gmap string ItemValue) :
  load_from_videos B item video_frame_keys videos_dir tolerance_s = (tr, inr item') ->
  Forall2 (fun key s => exists v ref,
               item !! key = Some v /\ video_ref v = Some ref /\
               s = str (truediv (parent videos_dir) (path ref)))
          video_frame_keys (opened_paths tr).
Proof.
  unfold load_from_videos. apply for_each_load_key_success_opened. auto.
Qed.

Lemma load_from_videos_one_video_per_key_witness :
  let run := load_from_videos example_backend example_item example_keys
               example_videos_dir (f64 6 100) in
  let item' := match snd run with inr it => it | inl _ => ∅ end in
  run = (fst run, inr item') /\
  Forall2 (fun key s => exists v ref,
               example_item !! key = Some v /\ video_ref v = Some ref /\
               s = str (truediv (parent example_videos_dir) (path ref)))
          example_keys (opened_paths (fst run)).
Proof.
  cbv zeta. split; [vm_compute; reflexivity |].
  apply (load_from_videos_one_video_per_key example_backend example_item example_keys
           example_videos_dir (f64 6 100)
           (fst (load_from_videos example_backend example_item example_keys
                   example_videos_dir (f64 6 100)))
           (match snd (load_from_videos example_backend example_item example_keys
                         example_videos_dir (f64 6 100)) with
            | inr it => it | inl _ => ∅ end)).
  vm_compute. reflexivity.
Defined.

(** ** The path guard, for every list of references *)

(** X16: as the guard of line 24 is written, every non-empty list of
    references that all store the same path is rejected with
    [NotImplementedError], before any video is opened. *)
Theorem load_from_videos_same_paths_rejected (B : Backend)
    (item : gmap string ItemValue) (key : string) (later : list string)
    (videos_dir : Path) (tolerance_s : float64) (ref : VideoFrame) (refs : list VideoFrame) :
  item !! key = Some (VFrameRefList (ref :: refs)) ->
  Forall (fun r => path r = path ref) refs ->
  load_from_videos B item (key :: later) videos_dir tolerance_s
  = ([], inl (NotImplementedError "All video paths are expected to be the same for now.")).
Proof.
  intros Hkey Hsame. unfold load_from_videos. cbn [for_each].
  rewrite (load_key_same_paths _ _ _ _ _ _ _ Hkey Hsame). reflexivity.
Qed.

Lemma load_from_videos_same_paths_rejected_witness :
  let ref := {| path := "videos/episode_0.mp4"; timestamp := (f64 1 10) |} in
  let refs := [ {| path := "videos/episode_0.mp4"; timestamp := (f64 2 10) |} ] in
  let item : gmap string ItemValue := {[ "observation.images" := VFrameRefList (ref :: refs) ]} in
  item !! "observation.images" = Some (VFrameRefList (ref :: refs)) /\
  Forall (fun r => path r = path ref) refs /\
  load_from_videos example_backend item ["observation.images"] example_videos_dir (f64 6 100)
  = ([], inl (NotImplementedError "All video paths are expected to be the same for now.")).
Proof.
  cbv zeta. split; [vm_compute; reflexivity |]. split; [repeat constructor |].
  apply (load_from_videos_same_paths_rejected example_backend
           {[ "observation.images" :=
                VFrameRefList [ {| path := "videos/episode_0.mp4"; timestamp := (f64 1 10) |};
                                {| path := "videos/episode_0.mp4"; timestamp := (f64 2 10) |} ] ]}
           "observation.images" [] example_videos_dir (f64 6 100)
           {| path := "videos/episode_0.mp4"; timestamp := (f64 1 10) |}
           [ {| path := "videos/episode_0.mp4"; timestamp := (f64 2 10) |} ]).
  - vm_compute. reflexivity.
  - repeat constructor.
Defined.

(** ** The path guard, under every listed key *)

Lemma for_each_load_key_same_paths (B : Backend) (data_dir : Path) (tolerance_s : float64)
    (key : string) (ref : VideoFrame) (refs : list VideoFrame) (keys : list string) :
  Forall (fun r => path r = path ref) refs ->
  forall item : gmap string ItemValue,
    In key keys ->
    item !! key = Some (VFrameRefList (ref :: refs)) ->
    exists tr e, for_each (load_key B data_dir tolerance_s) keys item = (tr, inl e).
Proof.
  intros Hsame. induction keys as [|k keys IH]; intros item Hin Hkey; [destruct Hin|].
  cbn [for_each]. destruct (decide (k = key)) as [->|Hne].
  - rewrite (load_key_same_paths _ _ _ _ _ _ _ Hkey Hsame). rewrite bind_err. eauto.
  - destruct Hin as [Hk | Hin]; [contradiction|].
    destruct (load_key B data_dir tolerance_s item k) as [tr1 [e|item1]] eqn:Hload.
    + rewrite bind_err. eauto.
    + destruct (load_key_inv _ _ _ _ _ _ _ Hload) as (v & -> & _).
      destruct (IH (<[k := v]> item) Hin) as (tr2 & e & Hrest).
      { rewrite lookup_insert_ne by exact Hne. exact Hkey. }
      rewrite bind_ok, Hrest. unfold prepend. cbn [fst snd]. eauto.
Qed.

(** X18: as the guard of line 24 is written, a call cannot return when a
    listed key holds a non-empty list of references that all store the same
    path, wherever the key stands in [video_frame_keys]: the call raises, at
    that key at the latest. *)
Theorem load_from_videos_one_video_list_never_returns (B : Backend)
    (item : gmap string ItemValue) (video_frame_keys : list string) (videos_dir : Path)
    (tolerance_s : float64) (key : string) (ref : VideoFrame) (refs : list VideoFrame) :
  In key video_frame_keys ->
  item !! key = Some (VFrameRefList (ref :: refs)) ->
  Forall (fun r => path r = path ref) refs ->
  exists tr e,
    load_from_videos B item video_frame_keys videos_dir tolerance_s = (tr, inl e).
Proof.
  intros Hin Hkey Hsame. unfold load_from_videos.
  eapply for_each_load_key_same_paths; eassumption.
Qed.

Lemma load_from_videos_one_video_list_never_returns_witness :
  let ref := {| path := "videos/episode_0.mp4"; timestamp := f64 1 10 |} in
  let refs := [ {| path := "videos/episode_0.mp4"; timestamp := f64 2 10 |} ] in
  In "observation.images" example_keys /\
  example_item_one_video !! "observation.images" = Some (VFrameRefList (ref :: refs)) /\
  Forall (fun r => path r = path ref) refs /\
  exists tr e,
    load_from_videos example_backend example_item_one_video example_keys
      example_videos_dir (f64 6 100) = (tr, inl e).
Proof.
  cbv zeta. split; [right; left; reflexivity |]. split; [vm_compute; reflexivity |].
  split; [repeat constructor |].
  apply (load_from_videos_one_video_list_never_returns example_backend
           example_item_one_video example_keys example_videos_dir (f64 6 100)
           "observation.images"
           {| path := "videos/episode_0.mp4"; timestamp := f64 1 10 |}
           [ {| path := "videos/episode_0.mp4"; timestamp := f64 2 10 |} ]).
  - right. left. reflexivity.
  - vm_compute. reflexivity.
  - repeat constructor.
Defined.

(** ** What a call that returns has put into the item *)

(** X19: when [load_from_videos] returns, every key of [video_frame_keys]
    was resolved.  A key that held one frame reference holds one tensor, the
    single frame decoded for its timestamp; a key that held a list of frame
    references (one that passed the guard of line 24) holds the stack of as
    many tensors as there were references, all decoded from the video of the
    first reference.  The video path is the stored path resolved against the
    parent of [videos_dir]. *)
Theorem load_from_videos_resolves_entries (B : Backend)
    (item : gmap string ItemValue) (video_frame_keys : list string) (videos_dir : Path)
    (tolerance_s : float64) (tr : list Event) (item' : gmap string ItemValue) :
  load_from_videos B item video_frame_keys videos_dir tolerance_s = (tr, inr item') ->
  forall key, In key video_frame_keys ->
    (exists ref tr' frame,
        item !! key = Some (VFrameRef ref) /\
        decode_video_frames_torchvision B (truediv (parent videos_dir) (path ref))
          [timestamp ref] tolerance_s "cpu" false = (tr', inr [frame]) /\
        item' !! key = Some (VTensor frame))
    \/
    (exists refs ref0 tr' frames,
        item !! key = Some (VFrameRefList refs) /\
        head refs = Some ref0 /\
        decode_video_frames_torchvision B (truediv (parent videos_dir) (path ref0))
          (List.map timestamp refs) tolerance_s "cpu" false = (tr', inr frames) /\
        length frames = length refs /\
        item' !! key = Some (VTensorStack frames)).
Proof.
  intros Hrun. unfold load_from_videos in Hrun.
  exact (proj1 (for_each_load_key_inv B (parent videos_dir) tolerance_s video_frame_keys
                  item tr item' Hrun)).
Qed.

Lemma load_from_videos_resolves_entries_witness :
  let run := load_from_videos example_backend example_item example_keys
               example_videos_dir (f64 6 100) in
  let item' := match snd run with inr it => it | inl _ => ∅ end in
  run = (fst run, inr item') /\
  forall key, In key example_keys ->
    (exists ref tr' frame,
        example_item !! key = Some (VFrameRef ref) /\
        decode_video_frames_torchvision example_backend
          (truediv (parent example_videos_dir) (path ref))
          [timestamp ref] (f64 6 100) "cpu" false = (tr', inr [frame]) /\
        item' !! key = Some (VTensor frame))
    \/
    (exists refs ref0 tr' frames,
        example_item !! key = Some (VFrameRefList refs) /\
        head refs = Some ref0 /\
        decode_video_frames_torchvision example_backend
          (truediv (parent example_videos_dir) (path ref0))
          (List.map timestamp refs) (f64 6 100) "cpu" false = (tr', inr frames) /\
        length frames = length refs /\
        item' !! key = Some (VTensorStack frames)).
Proof.
  cbv zeta. split; [vm_compute; reflexivity |].
  apply (load_from_videos_resolves_entries example_backend example_item
           example_keys example_videos_dir (f64 6 100)
           (fst (load_from_videos example_backend example_item example_keys
                   example_videos_dir (f64 6 100)))).
  vm_compute. reflexivity.
Defined.

(** ** VqVae: the decoder undoes the shape of the encoder *)

(** X17: with non-negative sizes, when torch can allocate a linear layer
    between any two of the three sizes, the encoder and the decoder of
    [VqVae] are built without error; the encoder takes a flattened action
    chunk ([action_dim * action_chunk_size] features) to
    [vqvae_embedding_dim] features, and the decoder after the encoder gives
    back as many features as the action chunk has, so that the reconstruction
    can be compared with the input. *)
Theorem VqVae_autoencoder_shapes (allocates : Z -> Z -> bool) (config : VQBeTConfig) :
  0 <= action_dim config * action_chunk_size config ->
  0 <= vqvae_enc_hidden_dim config ->
  0 <= vqvae_embedding_dim config ->
  (forall i o,
      In i [action_dim config * action_chunk_size config; vqvae_enc_hidden_dim config;
            vqvae_embedding_dim config] ->
      In o [action_dim config * action_chunk_size config; vqvae_enc_hidden_dim config;
            vqvae_embedding_dim config] ->
      allocates i o = true) ->
  exists encoder decoder,
    VqVae_encoder allocates config = inr encoder /\
    VqVae_decoder allocates config = inr decoder /\
    forward_features encoder (action_dim config * action_chunk_size config)
    = Some (vqvae_embedding_dim config) /\
    forward_features (encoder ++ decoder) (action_dim config * action_chunk_size config)
    = Some (action_dim config * action_chunk_size config).
Proof.
  intros Hin Hhid Hemb Halloc. unfold VqVae_encoder, VqVae_decoder, MLP_init.
  cbn [removelast MLP_loop].
  rewrite !new_Linear_ok by (assumption || (apply Halloc; cbn [In]; tauto)).
  cbn [app]. rewrite !getitem_last. cbn [List.last].
  rewrite !new_Linear_ok by (assumption || (apply Halloc; cbn [In]; tauto)).
  eexists _, _. split; [reflexivity|]. split; [reflexivity|].
  cbn [forward_features app]. rewrite !Z.eqb_refl. split; reflexivity.
Qed.

Lemma VqVae_autoencoder_shapes_witness :
  let allocates := fun i o : Z => i * o <? 2 ^ 40 in
  let config := {| action_dim := 2; action_chunk_size := 5;
                   vqvae_enc_hidden_dim := 128; vqvae_embedding_dim := 256 |} in
  0 <= action_dim config * action_chunk_size config /\
  0 <= vqvae_enc_hidden_dim config /\
  0 <= vqvae_embedding_dim config /\
  (forall i o,
      In i [action_dim config * action_chunk_size config; vqvae_enc_hidden_dim config;
            vqvae_embedding_dim config] ->
      In o [action_dim config * action_chunk_size config; vqvae_enc_hidden_dim config;
            vqvae_embedding_dim config] ->
      allocates i o = true) /\
  exists encoder decoder,
    VqVae_encoder allocates config = inr encoder /\
    VqVae_decoder allocates config = inr decoder /\
    forward_features encoder (action_dim config * action_chunk_size config)
    = Some (vqvae_embedding_dim config) /\
    forward_features (encoder ++ decoder) (action_dim config * action_chunk_size config)
    = Some (action_dim config * action_chunk_size config).
Proof.
  cbv zeta.
  assert (Halloc : forall i o, In i [2 * 5; 128; 256] -> In o [2 * 5; 128; 256] ->
                               (i * o <? 2 ^ 40) = true).
  { intros i o Hi Ho. cbn [In] in Hi, Ho. apply Z.ltb_lt.
    destruct Hi as [<- | [<- | [<- | []]]];
      destruct Ho as [<- | [<- | [<- | []]]]; reflexivity. }
  split; [cbn; lia |]. split; [cbn; lia |]. split; [cbn; lia |].
  split; [exact Halloc |].
  apply (VqVae_autoencoder_shapes (fun i o : Z => i * o <? 2 ^ 40)
           {| action_dim := 2; action_chunk_size := 5;
              vqvae_enc_hidden_dim := 128; vqvae_embedding_dim := 256 |});
    [cbn; lia | cbn; lia | cbn; lia | exact Halloc].
Defined.

